(** * Tagged errors (package fur) and the log renderer (package log)

    A shallow embedding of [fur.Error] and of [Logger.write] /
    [Logger.writeJSON], with the properties of the rendered line and of
    the JSON document that follow from the code. *)

From Stdlib Require Import Ascii ZArith.
From Equations Require Import Equations.
From stdpp Require Import base option list strings pretty gmap fin_maps.

Local Open Scope Z_scope.

(** ** Values and errors *)

(** Go maps are reference values: a [fur.Tags] is a reference into a store
    of maps, or nil. *)
Definition loc := positive.

(** The fragment of [interface{}] that tag values and document fields take:
    strings, integers, booleans, and any other value, which is represented
    by the text that the [%v] verb prints for it. *)
Inductive Value : Type :=
| VString (s : string)
| VInt (n : Z)
| VBool (b : bool)
| VOther (shown : string).

#[global] Instance Value_eq_dec : EqDecision Value.
Proof. solve_decision. Defined.

(** Error values.  [FurError] is a [fur.Error] struct held in an [error]
    interface; [Foreign] is an error of any other dynamic type, described by
    its message, by its [Unwrap] method if it has one (and what that
    returns), and by its [Tags] method if it has one.  A nil interface is
    [None : option error].  Error values are finite: a chain of causes
    without end, on which the loops of [write] do not terminate, is not a
    value of this type. *)
#[warnings="-register-all"]
Inductive error : Type :=
| FurError (Err : option error) (tags : option loc)
| Foreign (msg : string) (unwrap : option (option error))
          (tagger : option (option loc)).

(** The two dynamic types that [xerrors.Errorf] returns: [*wrapError], whose
    [Unwrap] gives the error formatted by [%w], and [*noWrapError], which has
    no [Unwrap] method.  Neither has a [Tags] method. *)
Definition wrapError (msg : string) (err : error) : error :=
  Foreign msg (Some (Some err)) None.
Definition noWrapError (msg : string) : error :=
  Foreign msg None None.

Fixpoint height (e : error) : nat :=
  match e with
  | FurError None _ => 1
  | FurError (Some x) _ => S (height x)
  | Foreign _ (Some (Some x)) _ => S (height x)
  | Foreign _ _ _ => 1
  end.

Definition oheight (err : option error) : nat :=
  match err with None => O | Some e => height e end.

(** [xerrors.Unwrap(err)]: the result of the [Unwrap] method when [err] has
    one, nil otherwise.  The [fur.Error] case is [Error.Unwrap], which is
    [xerrors.Unwrap(e.Err)]. *)
Fixpoint Unwrap_of (e : error) : option error :=
  match e with
  | FurError None _ => None
  | FurError (Some x) _ => Unwrap_of x
  | Foreign _ (Some c) _ => c
  | Foreign _ None _ => None
  end.

Definition xerrors_Unwrap (err : option error) : option error :=
  match err with
  | None => None
  | Some e => Unwrap_of e
  end.

(** Induction along the [Err] / wrapped-error field. *)
Fixpoint error_chain_ind (P : error -> Prop)
    (Hnil : forall t, P (FurError None t))
    (Hfur : forall x t, P x -> P (FurError (Some x) t))
    (Hwrap : forall m x t, P x -> P (Foreign m (Some (Some x)) t))
    (Hroot : forall m t, P (Foreign m (Some None) t))
    (Hplain : forall m t, P (Foreign m None t))
    (e : error) {struct e} : P e :=
  match e with
  | FurError None t => Hnil t
  | FurError (Some x) t =>
      Hfur x t (error_chain_ind P Hnil Hfur Hwrap Hroot Hplain x)
  | Foreign m (Some (Some x)) t =>
      Hwrap m x t (error_chain_ind P Hnil Hfur Hwrap Hroot Hplain x)
  | Foreign m (Some None) t => Hroot m t
  | Foreign m None t => Hplain m t
  end.

Lemma Unwrap_of_height e : (oheight (Unwrap_of e) < height e)%nat.
Proof. induction e using error_chain_ind; simpl in *; lia. Qed.

(** The loop header [for ; err != nil; err = xerrors.Unwrap(err)] shared by
    [write] and [writeJSON], with the loop body as a state transformer. *)
Equations? for_unwrap {S : Type} (body : error -> S -> S)
    (err : option error) (st : S) : S by wf (oheight err) lt :=
  for_unwrap body None st := st;
  for_unwrap body (Some e) st :=
    for_unwrap body (xerrors_Unwrap (Some e)) (body e st).
Proof. apply Unwrap_of_height. Qed.

(** The links the loop visits, outermost first. *)
Equations? chain (err : option error) : list error by wf (oheight err) lt :=
  chain None := [];
  chain (Some e) := e :: chain (xerrors_Unwrap (Some e)).
Proof. apply Unwrap_of_height. Qed.

(** ** Package fur *)

Abbreviation tagmap := (gmap string Value).
Abbreviation store := (gmap loc tagmap).

(** [fur.Tags]: a reference to a map in the store, or the nil map. *)
Definition Tags : Type := option loc.

(** Reading through a map reference; a nil map reads as the empty map. *)
Definition deref (h : store) (t : Tags) : tagmap :=
  match t with
  | None => ∅
  | Some l => default ∅ (h !! l)
  end.

(** The composite literal [Tags{}] makes a new, empty map. *)
Definition make_Tags (h : store) : loc * store :=
  let l := fresh (dom h) in (l, <[l := ∅]> h).

Module fur.

Record Error : Type := mkError { Err : option error; tags : Tags }.

(** A [fur.Error] as an [error] interface value. *)
Definition as_error (e : Error) : error := FurError (Err e) (tags e).

(** [Error.Error]: the message of the underlying error; calling it with a
    nil [Err] panics ([None]). *)
Fixpoint message (e : error) : option string :=
  match e with
  | FurError None _ => None
  | FurError (Some x) _ => message x
  | Foreign msg _ _ => Some msg
  end.

Definition Error_Error (e : Error) : option string :=
  match Err e with None => None | Some x => message x end.

(** [Error.Unwrap]. *)
Definition Unwrap (e : Error) : option error := xerrors_Unwrap (Err e).

(** [Error.Tags]. *)
Definition Error_Tags (e : Error) : Tags := tags e.

(** [Error.Tag]: [e.tags[key] = value; return e].  Assigning to an entry
    of a nil map panics ([None]); a reference without a map in the store is
    not a value a program can hold, and gives [None] as well. *)
Definition Tag (e : Error) (key : string) (value : Value) (h : store)
    : option (Error * store) :=
  match tags e with
  | None => None
  | Some l =>
      match h !! l with
      | None => None
      | Some m => Some (e, <[l := <[key := value]> m]> h)
      end
  end.

(** [New]. *)
Definition New (err : option error) (h : store) : Error * store :=
  let '(l, h') := make_Tags h in (mkError err (Some l), h').

(** [Errorf], on the error [err] that [xerrors.Errorf(format, args...)]
    returned. *)
Definition Errorf (err : error) (h : store) : Error * store :=
  let '(l, h') := make_Tags h in (mkError (Some err) (Some l), h').

End fur.

(** The type assertion [err.(fur.Tagger)] followed by [e.Tags()]: [None]
    when the dynamic type of [err] has no [Tags] method. *)
Definition Tagger (e : error) : option Tags :=
  match e with
  | FurError _ t => Some t
  | Foreign _ _ tg => tg
  end.

(** ** Services of the platform used by package log *)

(** A line feed. *)
Definition nl : string := String "010"%char "".

(** The [%v] verb of package fmt. *)
Definition fmt_v (v : Value) : string :=
  match v with
  | VString s => s
  | VInt n => pretty n
  | VBool true => "true"
  | VBool false => "false"
  | VOther shown => shown
  end.

(** [strings.HasSuffix]: [len(s) >= len(suffix) &&
    s[len(s)-len(suffix):] == suffix]. *)
Definition strings_HasSuffix (s suffix : string) : bool :=
  (String.length suffix <=? String.length s)%nat
  && bool_decide (String.substring (String.length s - String.length suffix)
                            (String.length suffix) s = suffix).

(** Index of the last occurrence of a byte, or -1. *)
Fixpoint LastIndexByte (s : string) (c : ascii) : Z :=
  match s with
  | EmptyString => -1
  | String a r =>
      let i := LastIndexByte r c in
      if 0 <=? i then i + 1
      else if bool_decide (a = c) then 0 else -1
  end.

(** [path.Split]: [return path[:i+1], path[i+1:]] with [i] the index of the
    final slash. *)
Definition path_Split (p : string) : string * string :=
  let i := Z.to_nat (LastIndexByte p "/"%char + 1) in
  (String.substring 0 i p, String.substring i (String.length p - i) p).

(** Destinations of writes: the process's standard error stream, and any
    other [io.Writer]. *)
Inductive Writer : Type :=
| os_Stderr
| Sink (id : positive).

#[global] Instance Writer_eq_dec : EqDecision Writer.
Proof. solve_decision. Defined.

(** One call of a [Write] method or of [fmt.Fprintf] on a writer. *)
Inductive Event : Type :=
| Write (w : Writer) (data : string).

(** What one call observes of the running program: the clock, formatted with
    [time.RFC3339Nano] (in UTC when the argument is [true]); the name under
    which the runtime reports the source file of package log; the file and
    line of every frame on the call stack above [write], innermost first
    (the frame of [Printf], then the frame of its caller, and so on); and
    the order in which the [n]-th [range] statement executed by the call
    enumerates the map it is given. *)
Record Runtime : Type := mkRuntime {
  time_Now : bool -> string;
  log_go : string;
  callers : list (string * Z);
  map_range : nat -> tagmap -> list (string * Value)
}.

(** [runtime.Caller(skip)] in a function whose own position is [here]:
    frame 0 is the function itself, frame 1 its caller; [ok] is false
    ([None]) when the stack has no such frame. *)
Definition runtime_Caller (here : string * Z) (above : list (string * Z))
    (skip : nat) : option (string * Z) :=
  (here :: above) !! skip.

(** The runtime as a function called at line [line] of log.go sees it. *)
Definition called_from (rt : Runtime) (line : Z) : Runtime :=
  mkRuntime (time_Now rt) (log_go rt) ((log_go rt, line) :: callers rt)
            (map_range rt).

(** A [range] over a map visits every entry once, in an order of its own. *)
Definition range_ok (rt : Runtime) : Prop :=
  forall n m, map_range rt n m ≡ₚ map_to_list m.

(** Result of [json.Marshal]. *)
Inductive Marshaled : Type :=
| MarshalOk (buf : string)
| MarshalErr (err : string).

(** ** Package log *)

Definition FlagTimestamp : Z := Z.shiftl 1 0.
Definition FlagUTC : Z := Z.shiftl 1 1.
Definition FlagFile : Z := Z.shiftl 1 2.
Definition FlagPath : Z := Z.shiftl 1 3.
Definition FlagJSON : Z := Z.shiftl 1 4.

(** A [Logger]; its [out] is a writer, not the nil interface. *)
Record Logger : Type := mkLogger {
  out : Writer;
  prefix : string;
  flags : Z
}.

(** [New]. *)
Definition New (out : Writer) (prefix : string) (flags : Z) : Logger :=
  mkLogger out prefix flags.

(** The default logger [std]. *)
Definition std : Logger := New os_Stderr "" 0.

(** [SetFlags], [SetPrefix], [SetOutput]. *)
Definition SetFlags (l : Logger) (flags : Z) : Logger :=
  mkLogger (out l) (prefix l) flags.
Definition SetPrefix (l : Logger) (prefix : string) : Logger :=
  mkLogger (out l) prefix (flags l).
Definition SetOutput (l : Logger) (out : Writer) : Logger :=
  mkLogger out (prefix l) (flags l).

(** [l.flags&mask != 0]. *)
Definition flag_set (l : Logger) (mask : Z) : bool :=
  negb (Z.land (flags l) mask =? 0).

(** [xerrors.Errorf(format, args...)] is a [*wrapError] around the argument
    of a [%w] verb when the format has one, and a [*noWrapError] otherwise;
    [msg] is its formatted message. *)
Definition xerrors_Errorf (msg : string) (wrapped : option error) : error :=
  match wrapped with
  | Some e => wrapError msg e
  | None => noWrapError msg
  end.

(** The timestamp both modes use: [time.Now()], converted with [UTC()] when
    [FlagUTC] is set, formatted with [time.RFC3339Nano]. *)
Definition timestamp (l : Logger) (rt : Runtime) : string :=
  time_Now rt (flag_set l FlagUTC).

(** The caller's location, as both [write] (whose call of [runtime.Caller]
    is at line 159) and [writeJSON] (line 210) format it:
    [fmt.Sprintf("%s:%d: ", file, line)] when a file flag is set and
    [runtime.Caller] reports [ok]. *)
Definition location (l : Logger) (rt : Runtime) (here : Z) (calldepth : nat)
    : option string :=
  if flag_set l (Z.lor FlagFile FlagPath) then
    match runtime_Caller (log_go rt, here) (callers rt) calldepth with
    | Some (file, line) =>
        let file := if flag_set l FlagPath then file
                    else (path_Split file).2 in
        Some (file +:+ ":" +:+ pretty line +:+ ": ")
    | None => None
    end
  else None.

(** State of the tag loop of [write]: the builder, the variable [prefix],
    and the number of [range] statements executed so far. *)
Record TextState : Type := mkText {
  builder : string;
  sep : string;
  text_ranges : nat
}.

(** [fmt.Fprintf(b, "%s%s=%v", prefix, k, v); prefix = " "]. *)
Definition emit_tag (st : string * string) (kv : string * Value)
    : string * string :=
  (st.1 +:+ st.2 +:+ kv.1 +:+ "=" +:+ fmt_v kv.2, " ").

(** Body of the loop of [write]. *)
Definition write_body (rt : Runtime) (h : store) (e : error)
    (st : TextState) : TextState :=
  match Tagger e with
  | None => st
  | Some t =>
      let r := fold_left emit_tag
                 (map_range rt (text_ranges st) (deref h t))
                 (builder st, sep st) in
      mkText r.1 r.2 (S (text_ranges st))
  end.

(** Lines 147-186 of [write]: the string [b.String()]. *)
Definition write_buffer (l : Logger) (rt : Runtime) (h : store)
    (msg : string) (wrapped : option error) (calldepth : nat) : string :=
  let b := "" in
  let b := if flag_set l FlagTimestamp
           then b +:+ (timestamp l rt +:+ " ") else b in
  let b := b +:+ prefix l in
  let b := match location l rt 159 calldepth with
           | Some s => b +:+ s
           | None => b
           end in
  let err := xerrors_Errorf msg wrapped in
  let b := b +:+ msg in
  let err := xerrors_Unwrap (Some err) in
  let st := for_unwrap (write_body rt h) err (mkText b " (" 0) in
  if bool_decide (sep st ≠ " (") then builder st +:+ ")" else builder st.

(** State of the tag loop of [writeJSON]: the document [o] and the number
    of [range] statements executed so far. *)
Record JSONState : Type := mkJSON {
  document : tagmap;
  json_ranges : nat
}.

(** [o[k] = v]. *)
Definition assign (o : tagmap) (kv : string * Value) : tagmap :=
  <[kv.1 := kv.2]> o.

(** Body of the loop of [writeJSON]. *)
Definition writeJSON_body (rt : Runtime) (h : store) (e : error)
    (st : JSONState) : JSONState :=
  match Tagger e with
  | None => st
  | Some t =>
      mkJSON (fold_left assign
                (map_range rt (json_ranges st) (deref h t)) (document st))
             (S (json_ranges st))
  end.

(** Lines 195-217 of [writeJSON]: the fields set before the level. *)
Definition writeJSON_fields (l : Logger) (rt : Runtime) (msg : string)
    (calldepth : nat) : tagmap :=
  let o : tagmap := ∅ in
  let o := <["message" := VString msg]> o in
  let o := if flag_set l FlagTimestamp
           then <["timestamp" := VString (timestamp l rt)]> o else o in
  match location l rt 210 calldepth with
  | Some s => <["file" := VString s]> o
  | None => o
  end.

(** Lines 219-224 of [writeJSON]. *)
Definition writeJSON_level (o : tagmap) (err : option error) : tagmap :=
  match err with
  | None => <["level" := VString "info"]> o
  | Some _ => <["level" := VString "error"]> o
  end.

(** Lines 195-233 of [writeJSON]: the map [o] handed to [json.Marshal]. *)
Definition writeJSON_document (l : Logger) (rt : Runtime) (h : store)
    (msg : string) (wrapped : option error) (calldepth : nat) : tagmap :=
  let err := xerrors_Errorf msg wrapped in
  let o := writeJSON_fields l rt msg calldepth in
  let err := xerrors_Unwrap (Some err) in
  let o := writeJSON_level o err in
  document (for_unwrap (writeJSON_body rt h) err (mkJSON o 0)).

Section Log.

(** [json.Marshal] on a [map[string]interface{}], and the [%q] verb of
    package fmt on a string. *)
Variable json_Marshal : tagmap -> Marshaled.
Variable fmt_q : string -> string.

Definition writeJSON (l : Logger) (rt : Runtime) (h : store)
    (msg : string) (wrapped : option error) (calldepth : nat)
    : string * list Event :=
  let o := writeJSON_document l rt h msg wrapped calldepth in
  match json_Marshal o with
  | MarshalErr err =>
      (msg, [Write os_Stderr ("marshal json for message " +:+ fmt_q msg
                              +:+ ": " +:+ err +:+ nl)])
  | MarshalOk buf =>
      let s := buf in
      (s, [Write (out l) (s +:+ nl)])
  end.

Definition write (l : Logger) (rt : Runtime) (h : store)
    (msg : string) (wrapped : option error) (calldepth : nat)
    : string * list Event :=
  if flag_set l FlagJSON
  then writeJSON l (called_from rt 144) h msg wrapped (calldepth + 1)
  else
    let s := write_buffer l rt h msg wrapped calldepth in
    let s := if negb (strings_HasSuffix s nl) then s +:+ nl else s in
    (s, [Write (out l) s]).

(** [Logger.Printf], called with the stack [rt] has at line 127. *)
Definition Printf (l : Logger) (rt : Runtime) (h : store)
    (msg : string) (wrapped : option error) : list Event :=
  (write l (called_from rt 127) h msg wrapped 2).2.

End Log.

(** How a call of an entry point ends: it returns, it ends the process
    with [os.Exit], or it panics. *)
Inductive Control : Type :=
| Return
| Exit (status : Z)
| Panic (payload : string).

(** [Logger.Fatalf], whose call of [write] is at line 132. *)
Definition Fatalf (json_Marshal : tagmap -> Marshaled)
    (fmt_q : string -> string) (l : Logger) (rt : Runtime) (h : store)
    (msg : string) (wrapped : option error) : list Event * Control :=
  let r := write json_Marshal fmt_q l (called_from rt 132) h msg wrapped 2 in
  (r.2, Exit 1).

(** [Logger.Panicf], whose call of [write] is at line 138. *)
Definition Panicf (json_Marshal : tagmap -> Marshaled)
    (fmt_q : string -> string) (l : Logger) (rt : Runtime) (h : store)
    (msg : string) (wrapped : option error) : list Event * Control :=
  let r := write json_Marshal fmt_q l (called_from rt 138) h msg wrapped 2 in
  let s := r.1 in
  (r.2, Panic s).

(** The package-level [Printf], [Fatalf] and [Panicf] on the default logger,
    whose calls of [write] are at lines 65, 70 and 76; [std] is the value
    the default logger has at the call. *)
Definition std_Printf (json_Marshal : tagmap -> Marshaled)
    (fmt_q : string -> string) (std : Logger) (rt : Runtime) (h : store)
    (msg : string) (wrapped : option error) : list Event * Control :=
  let r := write json_Marshal fmt_q std (called_from rt 65) h msg wrapped 2 in
  (r.2, Return).

Definition std_Fatalf (json_Marshal : tagmap -> Marshaled)
    (fmt_q : string -> string) (std : Logger) (rt : Runtime) (h : store)
    (msg : string) (wrapped : option error) : list Event * Control :=
  let r := write json_Marshal fmt_q std (called_from rt 70) h msg wrapped 2 in
  (r.2, Exit 1).

Definition std_Panicf (json_Marshal : tagmap -> Marshaled)
    (fmt_q : string -> string) (std : Logger) (rt : Runtime) (h : store)
    (msg : string) (wrapped : option error) : list Event * Control :=
  let r := write json_Marshal fmt_q std (called_from rt 76) h msg wrapped 2 in
  let s := r.1 in
  (r.2, Panic s).

(** ** Notions used in the statements *)

(** The tag mapping a link exposes, if it has one. *)
Definition link_tags (h : store) (e : error) : option tagmap :=
  deref h <$> Tagger e.

(** The key/value pairs in the order the loops meet them: link after link,
    and within a link in the order of the [range] over its map. *)
Fixpoint emitted (rt : Runtime) (h : store) (n : nat) (links : list error)
    : list (string * Value) :=
  match links with
  | [] => []
  | e :: links =>
      match Tagger e with
      | None => emitted rt h n links
      | Some t => map_range rt n (deref h t) ++ emitted rt h (S n) links
      end
  end.

(** The same pairs, link by link. *)
Fixpoint emitted_by_link (rt : Runtime) (h : store) (n : nat)
    (links : list error) : list (list (string * Value)) :=
  match links with
  | [] => []
  | e :: links =>
      match Tagger e with
      | None => [] :: emitted_by_link rt h n links
      | Some t =>
          map_range rt n (deref h t) :: emitted_by_link rt h (S n) links
      end
  end.

(** One tag, as [%s=%v] prints it. *)
Definition render_tag (kv : string * Value) : string :=
  kv.1 +:+ "=" +:+ fmt_v kv.2.

(** Tags after the first, each preceded by a space. *)
Fixpoint later_tags (ps : list (string * Value)) : string :=
  match ps with
  | [] => ""
  | p :: ps => " " +:+ render_tag p +:+ later_tags ps
  end.

(** The tag segment as the specification words it: [" ("] before the first
    tag, [" "] before every later one, [")"] after the last, and nothing at
    all when there is no tag. *)
Definition tag_segment (ps : list (string * Value)) : string :=
  match ps with
  | [] => ""
  | p :: ps => " (" +:+ render_tag p +:+ later_tags ps +:+ ")"
  end.

(** What the loop has appended after a run of tags, when it started with
    separator [s]. *)
Definition appended (s : string) (ps : list (string * Value)) : string :=
  match ps with
  | [] => ""
  | p :: ps => s +:+ render_tag p +:+ later_tags ps
  end.

(** The separator the loop holds after a run of tags. *)
Definition sep_after (s : string) (ps : list (string * Value)) : string :=
  match ps with [] => s | _ => " " end.

(** Everything [write] puts before the message. *)
Definition line_head (l : Logger) (rt : Runtime) (calldepth : nat) : string :=
  (if flag_set l FlagTimestamp then timestamp l rt +:+ " " else "")
  +:+ prefix l +:+ default "" (location l rt 159 calldepth).

(** [s] ends with a newline that no other newline precedes. *)
Definition ends_with_one_newline (s : string) : Prop :=
  exists p, s = p +:+ nl /\ strings_HasSuffix p nl = false.

(** The value the deepest link carrying [k] attaches to it. *)
Fixpoint chain_tag (h : store) (k : string) (links : list error)
    : option Value :=
  match links with
  | [] => None
  | e :: links =>
      match chain_tag h k links with
      | Some v => Some v
      | None => default ∅ (link_tags h e) !! k
      end
  end.

(** No link carries a tag with key [k]. *)
Definition untagged (h : store) (k : string) (links : list error) : Prop :=
  Forall (fun e => default ∅ (link_tags h e) !! k = None) links.

(** The names of the fields that [writeJSON] sets itself. *)
Definition builtin_fields : list string :=
  ["message"; "level"; "timestamp"; "file"].

(** The writer an event writes to. *)
Definition writer_of (ev : Event) : Writer :=
  match ev with Write w _ => w end.

(** The diagnostic of line 237. *)
Definition marshal_diagnostic (fmt_q : string -> string) (msg err : string)
    : string :=
  "marshal json for message " +:+ fmt_q msg +:+ ": " +:+ err +:+ nl.

(** The keys of the tags that the links expose. *)
Definition chain_keys (h : store) (links : list error) : gset string :=
  ⋃ ((fun e => dom (default ∅ (link_tags h e))) <$> links).

(** The keys of the fields that [writeJSON] sets itself in a call. *)
Definition builtin_keys (l : Logger) (rt : Runtime) (calldepth : nat)
    : gset string :=
  {[ "message"; "level" ]}
  ∪ (if flag_set l FlagTimestamp then {[ "timestamp" ]} else ∅)
  ∪ (match location l rt 210 calldepth with
     | Some _ => {[ "file" ]}
     | None => ∅
     end).

(** The value of [flags] that sets exactly the chosen flags. *)
Definition flags_of (ts utc file path json : bool) : Z :=
  Z.lor (if ts then FlagTimestamp else 0)
    (Z.lor (if utc then FlagUTC else 0)
       (Z.lor (if file then FlagFile else 0)
          (Z.lor (if path then FlagPath else 0)
             (if json then FlagJSON else 0)))).

(** ** Sample inputs *)

Module Sample.

(** A runtime whose [range] enumerates a map in the order of
    [map_to_list], called from main.go:42 through [Printf]. *)
Definition rt : Runtime :=
  mkRuntime (fun _ => "2019-03-01T10:00:00.000000001Z") "/go/log/log.go"
            [("/go/log/log.go", 127); ("/src/app/main.go", 42)]
            (fun _ m => map_to_list m).

(** The same runtime, with maps enumerated in the opposite order. *)
Definition rt_rev : Runtime :=
  mkRuntime (time_Now rt) (log_go rt) (callers rt)
            (fun _ m => reverse (map_to_list m)).

(** A stand-in for [json.Marshal]: like it, it fails on a document that
    holds a channel (the [VOther] values of these samples); the text it
    gives for other documents is only a placeholder. *)
Definition Marshal (o : tagmap) : Marshaled :=
  if forallb (fun kv => match kv.2 with VOther _ => false | _ => true end)
             (map_to_list o)
  then MarshalOk ("{" +:+ pretty (size o) +:+ " fields}")
  else MarshalErr "json: unsupported type: chan int".

Definition text : Logger := New (Sink 1) "" 0.
Definition json : Logger := New (Sink 1) "" FlagJSON.
Definition json_file : Logger := New (Sink 1) "" (Z.lor FlagJSON FlagFile).
Definition std_json : Logger := SetFlags std FlagJSON.

Definition rootErr : error := noWrapError "timeout".

(** [fur.Errorf("connect: %w", rootErr)], with its map at reference 1. *)
Definition connect : error :=
  FurError (Some (wrapError "connect: timeout" rootErr)) (Some 1%positive).

(** [fur.Errorf("open: %w", connect)], with its map at reference 2. *)
Definition open : error :=
  FurError (Some (wrapError "open: connect: timeout" connect))
           (Some 2%positive).

(** [fur.Errorf("serve: %w", open)], with its map at reference 3. *)
Definition serve : error :=
  FurError (Some (wrapError "serve: open: connect: timeout" open))
           (Some 3%positive).

Definition one_tag (k : string) (v : Value) : store :=
  {[ 1%positive := {[ k := v ]} ]}.

Definition two_tags : store :=
  {[ 1%positive := {[ "a" := VInt 1; "b" := VInt 2 ]} ]}.

Definition ids : store :=
  {[ 1%positive := {[ "id" := VInt 1 ]};
     2%positive := {[ "id" := VInt 2 ]};
     3%positive := {[ "id" := VInt 3 ]} ]}.

End Sample.

(** ** Strings *)

Lemma app_cons_s (x : ascii) (a b : string) :
  String x a +:+ b = String x (a +:+ b).
Proof. reflexivity. Qed.

Lemma app_nil_l_s (a : string) : "" +:+ a = a.
Proof. reflexivity. Qed.

Lemma app_assoc_s (a b c : string) : (a +:+ b) +:+ c = a +:+ (b +:+ c).
Proof.
  induction a as [|x a IH]; [done|]. by rewrite !app_cons_s, IH.
Qed.

Lemma app_nil_r_s (a : string) : a +:+ "" = a.
Proof. induction a as [|x a IH]; [done|]. by rewrite app_cons_s, IH. Qed.

Lemma app_length_s (a b : string) :
  String.length (a +:+ b) = (String.length a + String.length b)%nat.
Proof.
  induction a as [|x a IH]; [done|]. rewrite app_cons_s. simpl. by rewrite IH.
Qed.

Lemma substring_suffix (a b : string) :
  String.substring (String.length a) (String.length b) (a +:+ b) = b.
Proof.
  induction a as [|x a IH]; [|by rewrite app_cons_s].
  rewrite app_nil_l_s. simpl.
  induction b as [|y b IHb]; simpl; [done | by rewrite IHb].
Qed.

Lemma substring_split (n : nat) (s : string) :
  (n <= String.length s)%nat ->
  s = String.substring 0 n s +:+ String.substring n (String.length s - n) s.
Proof.
  revert n.
  induction s as [|x s IH]; intros [|n] Hn; simpl in *; try lia; try done.
  - rewrite app_nil_l_s. f_equal. clear.
    induction s as [|y s IHs]; simpl; [done | by f_equal].
  - rewrite app_cons_s. f_equal. apply IH. lia.
Qed.

(** [strings.HasSuffix] holds exactly of the strings that end with the
    suffix. *)
Lemma strings_HasSuffix_spec (s suffix : string) :
  strings_HasSuffix s suffix = true <-> exists p, s = p +:+ suffix.
Proof.
  unfold strings_HasSuffix. rewrite andb_true_iff, Nat.leb_le,
    bool_decide_eq_true. split.
  - intros [Hlen Hsub].
    exists (String.substring 0 (String.length s - String.length suffix) s).
    pose proof (substring_split (String.length s - String.length suffix) s
                  ltac:(lia)) as Hs.
    replace (String.length s - (String.length s - String.length suffix))%nat
      with (String.length suffix) in Hs by lia.
    by rewrite Hsub in Hs.
  - intros [p ->]. rewrite app_length_s. split; [lia|].
    replace (String.length p + String.length suffix - String.length suffix)%nat
      with (String.length p) by lia.
    apply substring_suffix.
Qed.

(** ** The chain walk *)

Lemma xerrors_Unwrap_height e :
  (oheight (xerrors_Unwrap (Some e)) < oheight (Some e))%nat.
Proof. apply Unwrap_of_height. Qed.

Lemma Unwrap_of_FurError e :
  Unwrap_of (fur.as_error e) = fur.Unwrap e.
Proof. destruct e as [[x|] t]; reflexivity. Qed.

Lemma for_unwrap_chain {S : Type} (body : error -> S -> S) err st :
  for_unwrap body err st = fold_left (fun st e => body e st) (chain err) st.
Proof.
  revert st. funelim (chain err); intros st; simp for_unwrap; [done|].
  simpl. auto.
Qed.

Lemma chain_Some e : chain (Some e) = e :: chain (Unwrap_of e).
Proof. by simp chain. Qed.

(** ** Text mode: the tag segment *)

Lemma emitted_concat rt h n links :
  emitted rt h n links = concat (emitted_by_link rt h n links).
Proof.
  revert n. induction links as [|e links IH]; intros n; simpl; [done|].
  destruct (Tagger e); simpl; by rewrite IH.
Qed.

Lemma emitted_by_link_perm rt h n links :
  range_ok rt ->
  Forall2 (fun e ps => ps ≡ₚ map_to_list (default ∅ (link_tags h e)))
          links (emitted_by_link rt h n links).
Proof.
  intros Hrt. revert n.
  induction links as [|e links IH]; intros n; simpl; [constructor|].
  destruct (Tagger e) eqn:Ht; constructor; auto;
    unfold link_tags; rewrite Ht; simpl; [apply Hrt|].
  by rewrite map_to_list_empty.
Qed.

Lemma later_tags_app ps qs :
  later_tags (ps ++ qs) = later_tags ps +:+ later_tags qs.
Proof.
  induction ps as [|p ps IH]; simpl; [done|].
  by rewrite IH, !app_assoc_s.
Qed.

Lemma appended_app s ps qs :
  appended s (ps ++ qs) = appended s ps +:+ appended (sep_after s ps) qs.
Proof.
  destruct ps as [|p ps]; simpl; [done|].
  rewrite later_tags_app, !app_assoc_s. by destruct qs.
Qed.

Lemma sep_after_app s ps qs :
  sep_after s (ps ++ qs) = sep_after (sep_after s ps) qs.
Proof. destruct ps, qs; done. Qed.

Lemma fold_emit_tag ps b s :
  fold_left emit_tag ps (b, s) = (b +:+ appended s ps, sep_after s ps).
Proof.
  revert b s. induction ps as [|p ps IH]; intros b s; simpl.
  - by rewrite app_nil_r_s.
  - change (emit_tag (b, s) p) with (b +:+ s +:+ render_tag p, " ").
    rewrite IH. f_equal; [|by destruct ps].
    rewrite !app_assoc_s. by destruct ps.
Qed.

Lemma fold_write_body rt h links b s n :
  let st := fold_left (fun st e => write_body rt h e st) links
              (mkText b s n) in
  builder st = b +:+ appended s (emitted rt h n links)
  /\ sep st = sep_after s (emitted rt h n links).
Proof.
  revert b s n. induction links as [|e links IH]; intros b s n; simpl.
  - by rewrite app_nil_r_s.
  - unfold write_body at 2 4. destruct (Tagger e) as [t|]; simpl; [|apply IH].
    rewrite fold_emit_tag. simpl.
    destruct (IH (b +:+ appended s (map_range rt n (deref h t)))
                 (sep_after s (map_range rt n (deref h t))) (S n))
      as [-> ->].
    by rewrite appended_app, sep_after_app, app_assoc_s.
Qed.

Lemma write_buffer_segment l rt h msg wrapped calldepth :
  write_buffer l rt h msg wrapped calldepth
  = line_head l rt calldepth +:+ msg
    +:+ tag_segment (emitted rt h 0 (chain
          (xerrors_Unwrap (Some (xerrors_Errorf msg wrapped))))).
Proof.
  unfold write_buffer. rewrite for_unwrap_chain.
  set (links := chain _).
  match goal with |- context [fold_left _ links (mkText ?b _ _)] =>
    destruct (fold_write_body rt h links b " (" 0) as [-> ->];
    assert (b = line_head l rt calldepth +:+ msg) as ->
  end.
  { unfold line_head. rewrite !app_nil_l_s, !app_assoc_s.
    destruct (flag_set l FlagTimestamp), (location l rt 159 calldepth); simpl;
      rewrite ?app_nil_l_s, ?app_assoc_s, ?app_nil_r_s; done. }
  destruct (emitted rt h 0 links) as [|p ps]; simpl;
    by rewrite !app_assoc_s.
Qed.

Lemma write_text json_Marshal fmt_q l rt h msg wrapped calldepth :
  flag_set l FlagJSON = false ->
  let b := write_buffer l rt h msg wrapped calldepth in
  let s := if strings_HasSuffix b nl then b else b +:+ nl in
  write json_Marshal fmt_q l rt h msg wrapped calldepth
  = (s, [Write (out l) s]).
Proof.
  intros Hjson. unfold write. rewrite Hjson.
  by destruct (strings_HasSuffix _ nl).
Qed.

(** C1.  In text mode the line is the head, the message and then the tag
    segment: walking the chain from the first unwrap of the formatted
    message, every link contributes the key/value pairs of the tag mapping
    it exposes (none if it exposes none), the pairs of an outer link come
    before those of an inner link, the first pair overall is preceded by
    [" ("], every later one by [" "], and [")"] closes the segment exactly
    when there is at least one pair. *)
Theorem write_tag_segment json_Marshal fmt_q l rt h msg wrapped calldepth :
  range_ok rt ->
  flag_set l FlagJSON = false ->
  let links := chain (xerrors_Unwrap (Some (xerrors_Errorf msg wrapped))) in
  exists (per_link : list (list (string * Value))) (tail : string),
    Forall2 (fun e ps => ps ≡ₚ map_to_list (default ∅ (link_tags h e)))
            links per_link
    /\ (tail = "" \/ tail = nl)
    /\ (write json_Marshal fmt_q l rt h msg wrapped calldepth).1
       = line_head l rt calldepth +:+ msg
         +:+ tag_segment (concat per_link) +:+ tail
    /\ (tag_segment (concat per_link) = "" <-> concat per_link = [])
    /\ (concat per_link <> [] ->
        exists p ps, concat per_link = p :: ps
          /\ tag_segment (concat per_link)
             = " (" +:+ render_tag p +:+ later_tags ps +:+ ")").
Proof.
  intros Hrt Hjson links.
  exists (emitted_by_link rt h 0 links).
  exists (if strings_HasSuffix (write_buffer l rt h msg wrapped calldepth) nl
          then "" else nl).
  split; [by apply emitted_by_link_perm|].
  split; [destruct (strings_HasSuffix _ nl); auto|].
  split.
  - rewrite write_text by done. simpl.
    rewrite write_buffer_segment. fold links. rewrite <- emitted_concat.
    destruct (strings_HasSuffix _ nl);
      by rewrite ?app_nil_r_s, ?app_assoc_s.
  - split.
    + destruct (concat _) as [|p ps]; simpl; [done|]. split; done.
    + destruct (concat _) as [|p ps]; [done|]. intros _. by exists p, ps.
Qed.

(** ** Text mode: the trailing newline *)

Lemma app_inv_tail_s (a b c : string) : a +:+ c = b +:+ c -> a = b.
Proof.
  revert b. induction a as [|x a IH]; intros [|y b] H.
  - done.
  - apply (f_equal String.length) in H.
    rewrite app_cons_s, app_nil_l_s in H. simpl in H.
    rewrite app_length_s in H. lia.
  - apply (f_equal String.length) in H.
    rewrite app_cons_s, app_nil_l_s in H. simpl in H.
    rewrite app_length_s in H. lia.
  - rewrite !app_cons_s in H. injection H as -> H. f_equal. by apply IH.
Qed.

Lemma HasSuffix_two_newlines (p : string) :
  strings_HasSuffix (p +:+ nl) (nl +:+ nl) = strings_HasSuffix p nl.
Proof.
  apply eq_true_iff_eq. rewrite !strings_HasSuffix_spec. split.
  - intros [q Hq]. exists q. rewrite <- app_assoc_s in Hq.
    by apply app_inv_tail_s in Hq.
  - intros [q ->]. exists q. by rewrite app_assoc_s.
Qed.

(** C7, as the code has it.  In text mode the string written to the sink is
    the string returned; it is the built buffer itself when that ends with a
    newline and the buffer followed by one newline otherwise, so it always
    ends with a newline; and that newline is the only trailing one unless
    the buffer itself ends with two. *)
Theorem write_trailing_newline json_Marshal fmt_q l rt h msg wrapped calldepth :
  flag_set l FlagJSON = false ->
  let b := write_buffer l rt h msg wrapped calldepth in
  exists s,
    write json_Marshal fmt_q l rt h msg wrapped calldepth
      = (s, [Write (out l) s])
    /\ (strings_HasSuffix b nl = true -> s = b)
    /\ (strings_HasSuffix b nl = false -> s = b +:+ nl)
    /\ strings_HasSuffix s nl = true
    /\ (strings_HasSuffix b (nl +:+ nl) = false -> ends_with_one_newline s).
Proof.
  intros Hjson b. rewrite write_text by done. fold b.
  destruct (strings_HasSuffix b nl) eqn:Hb; eexists; split; try done.
  - repeat split; try done. intros Hbb.
    apply strings_HasSuffix_spec in Hb as [p Hp]. exists p. split; [done|].
    by rewrite Hp, HasSuffix_two_newlines in Hbb.
  - repeat split; try done.
    + apply strings_HasSuffix_spec. by exists b.
    + intros _. by exists b.
Qed.

Lemma write_trailing_newline_witness :
  flag_set (New (Sink 1) "" 0) FlagJSON = false
  /\ let b := write_buffer (New (Sink 1) "" 0)
                (mkRuntime (fun _ => "") "log.go" []
                           (fun _ m => map_to_list m)) ∅
                "plain message" None 2 in
     exists s,
       write (fun _ => MarshalOk "") id (New (Sink 1) "" 0)
         (mkRuntime (fun _ => "") "log.go" [] (fun _ m => map_to_list m))
         ∅ "plain message" None 2 = (s, [Write (Sink 1) s])
       /\ (strings_HasSuffix b nl = true -> s = b)
       /\ (strings_HasSuffix b nl = false -> s = b +:+ nl)
       /\ strings_HasSuffix s nl = true
       /\ (strings_HasSuffix b (nl +:+ nl) = false -> ends_with_one_newline s).
Proof.
  split; [reflexivity|].
  apply (write_trailing_newline (fun _ => MarshalOk "") id
           (New (Sink 1) "" 0)
           (mkRuntime (fun _ => "") "log.go" [] (fun _ m => map_to_list m))
           ∅ "plain message" None 2).
  reflexivity.
Defined.

(** C7 as stated fails: [Printf("a\n\n")] writes a line that ends with two
    newlines. *)
Lemma write_two_trailing_newlines :
  ~ (forall json_Marshal fmt_q l rt h msg wrapped calldepth,
       flag_set l FlagJSON = false ->
       ends_with_one_newline
         (write json_Marshal fmt_q l rt h msg wrapped calldepth).1).
Proof.
  intros H.
  specialize (H (fun _ => MarshalOk "") id (New (Sink 1) "" 0)
                (mkRuntime (fun _ => "") "log.go" []
                           (fun _ m => map_to_list m))
                ∅ ("a" +:+ nl +:+ nl) None 2%nat eq_refl).
  destruct H as [p [Hp Hnl]].
  change ((write _ _ _ _ _ _ _ _).1) with (("a" +:+ nl) +:+ nl) in Hp.
  apply app_inv_tail_s in Hp. subst p. vm_compute in Hnl. discriminate.
Qed.

(** ** JSON mode: the document *)

Lemma fold_assign (ps : list (string * Value)) (o : tagmap) :
  NoDup ps.*1 ->
  fold_left assign ps o = (list_to_map ps : tagmap) ∪ o.
Proof.
  revert o. induction ps as [|[k v] ps IH]; intros o Hnd.
  - simpl. by rewrite (left_id_L ∅ (∪)).
  - rewrite fmap_cons in Hnd. apply NoDup_cons in Hnd as [Hk Hnd].
    simpl. rewrite IH by done.
    unfold assign. simpl. rewrite <- insert_union_l. symmetry.
    apply insert_union_r. by apply not_elem_of_list_to_map_1.
Qed.

Lemma fold_assign_range rt n (m o : tagmap) :
  range_ok rt ->
  fold_left assign (map_range rt n m) o = m ∪ o.
Proof.
  intros Hrt. specialize (Hrt n m).
  rewrite fold_assign.
  - f_equal. rewrite <- (list_to_map_to_list m) at 2.
    apply list_to_map_proper; [|done].
    rewrite Hrt. apply NoDup_fst_map_to_list.
  - rewrite Hrt. apply NoDup_fst_map_to_list.
Qed.

Lemma fold_writeJSON_body rt h links o n :
  range_ok rt ->
  document (fold_left (fun st e => writeJSON_body rt h e st) links
              (mkJSON o n))
  = fold_left (fun o e => default ∅ (link_tags h e) ∪ o) links o.
Proof.
  intros Hrt. revert o n.
  induction links as [|e links IH]; intros o n; simpl; [done|].
  unfold writeJSON_body at 2, link_tags at 2.
  destruct (Tagger e) as [t|]; simpl.
  - by rewrite IH, fold_assign_range.
  - by rewrite IH, (left_id_L ∅ (∪)).
Qed.

Lemma lookup_fold_tags h links (o : tagmap) k :
  fold_left (fun o e => default ∅ (link_tags h e) ∪ o) links o !! k
  = match chain_tag h k links with
    | Some v => Some v
    | None => o !! k
    end.
Proof.
  revert o. induction links as [|e links IH]; intros o; simpl; [done|].
  rewrite IH. destruct (chain_tag h k links); [done|].
  rewrite lookup_union.
  destruct (default ∅ (link_tags h e) !! k), (o !! k); done.
Qed.

(** Every field of the document: the value of the deepest link that carries
    a tag with that key, and otherwise the built-in field. *)
Lemma writeJSON_document_lookup l rt h msg wrapped calldepth k :
  range_ok rt ->
  let err := xerrors_Unwrap (Some (xerrors_Errorf msg wrapped)) in
  writeJSON_document l rt h msg wrapped calldepth !! k
  = match chain_tag h k (chain err) with
    | Some v => Some v
    | None => writeJSON_level (writeJSON_fields l rt msg calldepth) err !! k
    end.
Proof.
  intros Hrt err. unfold writeJSON_document. fold err.
  by rewrite for_unwrap_chain, fold_writeJSON_body, lookup_fold_tags.
Qed.

Lemma chain_tag_untagged h k links :
  untagged h k links -> chain_tag h k links = None.
Proof. induction 1 as [|e links He _ IH]; simpl; [done|]. by rewrite IH. Qed.

Lemma chain_tag_deepest h k pre e post v :
  default ∅ (link_tags h e) !! k = Some v ->
  untagged h k post ->
  chain_tag h k (pre ++ e :: post) = Some v.
Proof.
  intros He Hpost. induction pre as [|x pre IH]; simpl.
  - by rewrite chain_tag_untagged.
  - by rewrite IH.
Qed.

Lemma chain_tag_None h k links :
  chain_tag h k links = None -> untagged h k links.
Proof.
  induction links as [|y links IH]; [constructor|].
  simpl. destruct (chain_tag h k links); [done|].
  intros Hy. constructor; [done | by apply IH].
Qed.

Lemma chain_tag_Some h k links v :
  chain_tag h k links = Some v ->
  exists pre e post,
    links = pre ++ e :: post
    /\ default ∅ (link_tags h e) !! k = Some v
    /\ untagged h k post.
Proof.
  induction links as [|x links IH]; simpl; [done|].
  destruct (chain_tag h k links) as [w|] eqn:Hw.
  - intros [= ->]. destruct (IH eq_refl) as (pre & e & post & -> & He & Hp).
    by exists (x :: pre), e, post.
  - intros Hx. exists [], x, links.
    split; [done|]. split; [done|]. by apply chain_tag_None.
Qed.

Lemma Sample_rt_ok : range_ok Sample.rt.
Proof. intros n m. reflexivity. Qed.

Lemma called_from_ok rt line : range_ok rt -> range_ok (called_from rt line).
Proof. intros Hrt n m. apply Hrt. Qed.

Lemma Sample_rt_rev_ok : range_ok Sample.rt_rev.
Proof. intros n m. simpl. apply reverse_Permutation. Qed.

(** ** JSON mode: level, collisions, built-in fields *)

(** The built-in fields hold what lines 199-224 assign. *)
Lemma writeJSON_level_lookup o err :
  writeJSON_level o err !! "level"
  = Some (VString (match err with None => "info" | Some _ => "error" end)).
Proof. destruct err; apply lookup_insert_eq. Qed.

Lemma writeJSON_level_lookup_ne o err k :
  k <> "level" -> writeJSON_level o err !! k = o !! k.
Proof. intros Hk. destruct err; by apply lookup_insert_ne. Qed.

(** C2, as the code has it.  When no link of the walked chain carries a tag
    with key ["level"], the document's ["level"] is ["info"] if and only if
    the formatted message has no cause, and ["error"] otherwise; without a
    cause it is ["info"] in every case. *)
Theorem writeJSON_level_field l rt h msg wrapped calldepth :
  range_ok rt ->
  let err := xerrors_Unwrap (Some (xerrors_Errorf msg wrapped)) in
  let o := writeJSON_document l rt h msg wrapped calldepth in
  (err = None -> o !! "level" = Some (VString "info"))
  /\ (untagged h "level" (chain err) ->
      (o !! "level" = Some (VString "info") <-> err = None)
      /\ (err <> None -> o !! "level" = Some (VString "error"))).
Proof.
  intros Hrt err o. subst o.
  rewrite writeJSON_document_lookup by done. fold err. clearbody err. split.
  - intros ->. simp chain. simpl. apply lookup_insert_eq.
  - intros Hun. rewrite chain_tag_untagged, writeJSON_level_lookup by done.
    destruct err; split; try done; split; done.
Qed.

Lemma writeJSON_level_field_witness :
  range_ok Sample.rt
  /\ let err := xerrors_Unwrap
                  (Some (xerrors_Errorf "open: connect: timeout"
                           (Some Sample.connect))) in
     let o := writeJSON_document Sample.json Sample.rt
                (Sample.one_tag "address" (VString "10.0.0.1:5432"))
                "open: connect: timeout" (Some Sample.connect) 3 in
     (err = None -> o !! "level" = Some (VString "info"))
     /\ (untagged (Sample.one_tag "address" (VString "10.0.0.1:5432"))
                  "level" (chain err) ->
         (o !! "level" = Some (VString "info") <-> err = None)
         /\ (err <> None -> o !! "level" = Some (VString "error"))).
Proof.
  split; [exact Sample_rt_ok|].
  apply (writeJSON_level_field Sample.json Sample.rt
           (Sample.one_tag "address" (VString "10.0.0.1:5432"))
           "open: connect: timeout" (Some Sample.connect) 3).
  exact Sample_rt_ok.
Defined.

(** C2 as stated fails: a tag with key ["level"] on a link of the chain
    takes the place of the level the code has set. *)
Lemma writeJSON_level_overridden :
  ~ (forall l rt h msg wrapped calldepth,
       range_ok rt ->
       let err := xerrors_Unwrap (Some (xerrors_Errorf msg wrapped)) in
       let o := writeJSON_document l rt h msg wrapped calldepth in
       (o !! "level" = Some (VString "info") <-> err = None)
       /\ (err <> None -> o !! "level" = Some (VString "error"))).
Proof.
  intros H.
  destruct (H Sample.json Sample.rt
              (Sample.one_tag "level" (VString "info"))
              "open: connect: timeout" (Some Sample.connect) 3%nat
              Sample_rt_ok) as [[Hinfo _] _].
  discriminate Hinfo. vm_compute. reflexivity.
Qed.

(** C3.  When an outer link and a deeper link carry a tag with the same
    key, the document holds the value of the deeper one: of two carriers
    the inner one, and in general the deepest link that carries the key,
    whatever the links before it and the built-in fields hold. *)
Theorem writeJSON_inner_tag_wins l rt h msg wrapped calldepth
    k pre outer mid inner post v_outer v_inner :
  range_ok rt ->
  chain (xerrors_Unwrap (Some (xerrors_Errorf msg wrapped)))
    = pre ++ outer :: mid ++ inner :: post ->
  default ∅ (link_tags h outer) !! k = Some v_outer ->
  default ∅ (link_tags h inner) !! k = Some v_inner ->
  untagged h k post ->
  writeJSON_document l rt h msg wrapped calldepth !! k = Some v_inner.
Proof.
  intros Hrt Hchain _ Hinner Hpost.
  rewrite writeJSON_document_lookup, Hchain by done.
  replace (pre ++ outer :: mid ++ inner :: post)
    with ((pre ++ outer :: mid) ++ inner :: post)
    by (by rewrite <- app_assoc).
  by rewrite (chain_tag_deepest h k _ inner post v_inner).
Qed.

Lemma writeJSON_inner_tag_wins_witness :
  range_ok Sample.rt
  /\ chain (xerrors_Unwrap (Some (xerrors_Errorf
              "serve: open: connect: timeout" (Some Sample.open))))
     = [] ++ Sample.open :: [] ++ Sample.connect :: [Sample.rootErr]
  /\ default ∅ (link_tags Sample.ids Sample.open) !! "id" = Some (VInt 2)
  /\ default ∅ (link_tags Sample.ids Sample.connect) !! "id" = Some (VInt 1)
  /\ untagged Sample.ids "id" [Sample.rootErr]
  /\ writeJSON_document Sample.json Sample.rt Sample.ids
       "serve: open: connect: timeout" (Some Sample.open) 3 !! "id"
     = Some (VInt 1).
Proof.
  assert (Hpost : untagged Sample.ids "id" [Sample.rootErr])
    by (repeat constructor).
  split; [exact Sample_rt_ok|].
  split; [reflexivity|]. split; [reflexivity|]. split; [reflexivity|].
  split; [exact Hpost|].
  apply (writeJSON_inner_tag_wins Sample.json Sample.rt Sample.ids
           "serve: open: connect: timeout" (Some Sample.open) 3 "id"
           [] Sample.open [] Sample.connect [Sample.rootErr]
           (VInt 2) (VInt 1));
    [exact Sample_rt_ok | reflexivity | reflexivity | reflexivity
    | exact Hpost].
Defined.

(** C9.  If any link of the walked chain carries a tag whose key is one of
    ["message"], ["level"], ["timestamp"], ["file"], the document holds
    under that key the value of a tag (that of the deepest link carrying
    the key), not the built-in field. *)
Theorem writeJSON_tag_replaces_builtin l rt h msg wrapped calldepth k :
  range_ok rt ->
  k ∈ builtin_fields ->
  let links := chain (xerrors_Unwrap (Some (xerrors_Errorf msg wrapped))) in
  Exists (fun e => is_Some (default ∅ (link_tags h e) !! k)) links ->
  exists pre e post v,
    links = pre ++ e :: post
    /\ default ∅ (link_tags h e) !! k = Some v
    /\ untagged h k post
    /\ writeJSON_document l rt h msg wrapped calldepth !! k = Some v.
Proof.
  intros Hrt _ links Hex.
  rewrite writeJSON_document_lookup by done. fold links.
  destruct (chain_tag h k links) as [v|] eqn:Hv.
  - destruct (chain_tag_Some _ _ _ _ Hv) as (pre & e & post & ? & ? & ?).
    by exists pre, e, post, v.
  - apply chain_tag_None in Hv. exfalso.
    apply Exists_exists in Hex as (e & He & [v Hv']).
    unfold untagged in Hv. rewrite Forall_forall in Hv.
    specialize (Hv e He). congruence.
Qed.

Lemma writeJSON_tag_replaces_builtin_witness :
  range_ok Sample.rt
  /\ "message" ∈ builtin_fields
  /\ Exists (fun e => is_Some (default ∅ (link_tags
               (Sample.one_tag "message" (VInt 7)) e) !! "message"))
       (chain (xerrors_Unwrap (Some (xerrors_Errorf "open: connect: timeout"
                 (Some Sample.connect)))))
  /\ exists pre e post v,
       chain (xerrors_Unwrap (Some (xerrors_Errorf "open: connect: timeout"
                (Some Sample.connect)))) = pre ++ e :: post
       /\ default ∅ (link_tags (Sample.one_tag "message" (VInt 7)) e)
            !! "message" = Some v
       /\ untagged (Sample.one_tag "message" (VInt 7)) "message" post
       /\ writeJSON_document Sample.json Sample.rt
            (Sample.one_tag "message" (VInt 7))
            "open: connect: timeout" (Some Sample.connect) 3 !! "message"
          = Some v.
Proof.
  assert (Hin : "message" ∈ builtin_fields) by (vm_compute; left).
  assert (Hex : Exists (fun e => is_Some (default ∅ (link_tags
               (Sample.one_tag "message" (VInt 7)) e) !! "message"))
       (chain (xerrors_Unwrap (Some (xerrors_Errorf "open: connect: timeout"
                 (Some Sample.connect)))))).
  { simpl. rewrite chain_Some. apply Exists_cons_hd. by exists (VInt 7). }
  split; [exact Sample_rt_ok|]. split; [exact Hin|]. split; [exact Hex|].
  exact (writeJSON_tag_replaces_builtin Sample.json Sample.rt
           (Sample.one_tag "message" (VInt 7))
           "open: connect: timeout" (Some Sample.connect) 3 "message"
           Sample_rt_ok Hin Hex).
Defined.

(** The caller that [writeJSON] resolves, one frame further up than
    [write] would, is the caller that [write] resolves. *)
Lemma location_writeJSON l rt calldepth :
  (1 <= calldepth)%nat ->
  location l (called_from rt 144) 210 (calldepth + 1)
  = location l rt 159 calldepth.
Proof.
  intros Hd. unfold location, runtime_Caller. simpl.
  destruct calldepth as [|d]; [lia|].
  by replace (S d + 1)%nat with (S (S d)) by lia.
Qed.

(** C10, as the code has it.  In JSON mode, when a file flag is set, the
    caller's location resolves to [file] and [line], and no link of the
    walked chain carries a tag with key ["file"], the ["file"] field is the
    string [<path-or-filename>:<line>: ], colon and space included: the
    text that [write] puts in a text line. *)
Theorem writeJSON_file_field l rt h msg wrapped calldepth file line :
  range_ok rt ->
  (1 <= calldepth)%nat ->
  flag_set l (Z.lor FlagFile FlagPath) = true ->
  runtime_Caller (log_go rt, 159) (callers rt) calldepth = Some (file, line) ->
  untagged h "file"
    (chain (xerrors_Unwrap (Some (xerrors_Errorf msg wrapped)))) ->
  let name := if flag_set l FlagPath then file else (path_Split file).2 in
  let s := name +:+ ":" +:+ pretty line +:+ ": " in
  writeJSON_document l (called_from rt 144) h msg wrapped (calldepth + 1)
    !! "file" = Some (VString s)
  /\ location l rt 159 calldepth = Some s
  /\ strings_HasSuffix s ": " = true.
Proof.
  intros Hrt Hd Hflag Hcaller Hun name s.
  assert (Hloc : location l rt 159 calldepth = Some s).
  { unfold location. by rewrite Hflag, Hcaller. }
  split; [|split; [done|]].
  - rewrite writeJSON_document_lookup by by apply called_from_ok.
    rewrite chain_tag_untagged, writeJSON_level_lookup_ne by done.
    unfold writeJSON_fields. rewrite location_writeJSON, Hloc by done.
    apply lookup_insert_eq.
  - apply strings_HasSuffix_spec. exists (name +:+ ":" +:+ pretty line).
    unfold s. by rewrite !app_assoc_s.
Qed.

Lemma writeJSON_file_field_witness :
  range_ok Sample.rt
  /\ (1 <= 2)%nat
  /\ flag_set Sample.json_file (Z.lor FlagFile FlagPath) = true
  /\ runtime_Caller (log_go Sample.rt, 159) (callers Sample.rt) 2
     = Some ("/src/app/main.go", 42)
  /\ untagged (Sample.one_tag "address" (VString "10.0.0.1:5432")) "file"
       (chain (xerrors_Unwrap (Some (xerrors_Errorf "open: connect: timeout"
                 (Some Sample.connect)))))
  /\ writeJSON_document Sample.json_file (called_from Sample.rt 144)
       (Sample.one_tag "address" (VString "10.0.0.1:5432"))
       "open: connect: timeout" (Some Sample.connect) (2 + 1) !! "file"
     = Some (VString "main.go:42: ").
Proof.
  assert (Hun : untagged (Sample.one_tag "address" (VString "10.0.0.1:5432"))
       "file"
       (chain (xerrors_Unwrap (Some (xerrors_Errorf "open: connect: timeout"
                 (Some Sample.connect)))))).
  { apply chain_tag_None. vm_compute. reflexivity. }
  split; [exact Sample_rt_ok|]. split; [lia|]. split; [reflexivity|].
  split; [reflexivity|]. split; [exact Hun|].
  exact (proj1 (writeJSON_file_field Sample.json_file Sample.rt
           (Sample.one_tag "address" (VString "10.0.0.1:5432"))
           "open: connect: timeout" (Some Sample.connect) 2
           "/src/app/main.go" 42 Sample_rt_ok ltac:(lia) eq_refl eq_refl Hun)).
Defined.

(** C10 as stated fails: a tag with key ["file"] on a link of the chain
    takes the place of the location. *)
Lemma writeJSON_file_overridden :
  ~ (forall l rt h msg wrapped calldepth file line,
       range_ok rt ->
       (1 <= calldepth)%nat ->
       flag_set l (Z.lor FlagFile FlagPath) = true ->
       runtime_Caller (log_go rt, 159) (callers rt) calldepth
         = Some (file, line) ->
       let name := if flag_set l FlagPath then file
                   else (path_Split file).2 in
       writeJSON_document l (called_from rt 144) h msg wrapped
         (calldepth + 1) !! "file"
       = Some (VString (name +:+ ":" +:+ pretty line +:+ ": "))).
Proof.
  intros H.
  specialize (H Sample.json_file Sample.rt
                (Sample.one_tag "file" (VString "upload.txt"))
                "open: connect: timeout" (Some Sample.connect) 2%nat
                "/src/app/main.go" 42 Sample_rt_ok ltac:(lia)
                eq_refl eq_refl).
  vm_compute in H. discriminate H.
Qed.

(** ** JSON mode: serialization failure *)

Lemma write_JSON json_Marshal fmt_q l rt h msg wrapped calldepth :
  flag_set l FlagJSON = true ->
  write json_Marshal fmt_q l rt h msg wrapped calldepth
  = writeJSON json_Marshal fmt_q l (called_from rt 144) h msg wrapped
      (calldepth + 1).
Proof. intros Hjson. unfold write. by rewrite Hjson. Qed.

(** C4, as the code has it.  In JSON mode, when the document fails to
    serialize, the call returns the plain formatted message and performs one
    write only: the diagnostic, to the standard error stream.  The log line
    is not written, and the logger's output receives nothing unless it is
    the standard error stream itself. *)
Theorem write_marshal_failure json_Marshal fmt_q l rt h msg wrapped
    calldepth err :
  flag_set l FlagJSON = true ->
  json_Marshal (writeJSON_document l (called_from rt 144) h msg wrapped
                  (calldepth + 1)) = MarshalErr err ->
  let r := write json_Marshal fmt_q l rt h msg wrapped calldepth in
  r = (msg, [Write os_Stderr (marshal_diagnostic fmt_q msg err)])
  /\ (out l <> os_Stderr -> Forall (fun ev => writer_of ev <> out l) r.2).
Proof.
  intros Hjson Herr r. subst r. rewrite write_JSON by done.
  unfold writeJSON. rewrite Herr. split; [done|].
  intros Hout. repeat constructor. simpl. congruence.
Qed.

Lemma write_marshal_failure_witness :
  flag_set Sample.json FlagJSON = true
  /\ Sample.Marshal
       (writeJSON_document Sample.json (called_from Sample.rt 144)
          (Sample.one_tag "conn" (VOther "0xc00001c0c0"))
          "open: connect: timeout" (Some Sample.connect) (2 + 1))
     = MarshalErr "json: unsupported type: chan int"
  /\ let r := write Sample.Marshal id Sample.json Sample.rt
                (Sample.one_tag "conn" (VOther "0xc00001c0c0"))
                "open: connect: timeout" (Some Sample.connect) 2 in
     r = ("open: connect: timeout",
          [Write os_Stderr
             (marshal_diagnostic id "open: connect: timeout"
                "json: unsupported type: chan int")])
     /\ (out Sample.json <> os_Stderr ->
         Forall (fun ev => writer_of ev <> out Sample.json) r.2).
Proof.
  split; [reflexivity|]. split; [vm_compute; reflexivity|].
  apply (write_marshal_failure Sample.Marshal id Sample.json Sample.rt
           (Sample.one_tag "conn" (VOther "0xc00001c0c0"))
           "open: connect: timeout" (Some Sample.connect) 2
           "json: unsupported type: chan int");
    [reflexivity | vm_compute; reflexivity].
Defined.

(** C4 as stated fails: the default logger writes to the standard error
    stream, which is where the diagnostic goes. *)
Lemma write_marshal_failure_on_stderr :
  ~ (forall json_Marshal fmt_q l rt h msg wrapped calldepth err,
       flag_set l FlagJSON = true ->
       json_Marshal (writeJSON_document l (called_from rt 144) h msg wrapped
                       (calldepth + 1)) = MarshalErr err ->
       let r := write json_Marshal fmt_q l rt h msg wrapped calldepth in
       r.1 = msg
       /\ Exists (fun ev => writer_of ev = os_Stderr) r.2
       /\ Forall (fun ev => writer_of ev <> out l) r.2).
Proof.
  intros H.
  destruct (H Sample.Marshal id Sample.std_json Sample.rt
              (Sample.one_tag "conn" (VOther "0xc00001c0c0"))
              "open: connect: timeout" (Some Sample.connect) 2%nat
              "json: unsupported type: chan int" eq_refl
              ltac:(vm_compute; reflexivity)) as (_ & _ & Hnone).
  vm_compute in Hnone. inversion Hnone as [|ev evs Hev _]. by apply Hev.
Qed.

(** ** Two runs of one call *)

Lemma map_range_small rt n (m : tagmap) :
  range_ok rt -> (size m <= 1)%nat -> map_range rt n m = map_to_list m.
Proof.
  intros Hrt Hm. specialize (Hrt n m).
  rewrite <- length_map_to_list in Hm.
  destruct (map_to_list m) as [|x [|y r]]; simpl in Hm; [| |lia].
  - by apply Permutation_nil_r.
  - by apply Permutation_singleton_r.
Qed.

Lemma emitted_small rt1 rt2 h n links :
  range_ok rt1 -> range_ok rt2 ->
  Forall (fun e => (size (default ∅ (link_tags h e)) <= 1)%nat) links ->
  emitted rt1 h n links = emitted rt2 h n links.
Proof.
  intros H1 H2 Hsmall. revert n.
  induction Hsmall as [|e links He _ IH]; intros n; simpl; [done|].
  unfold link_tags in He. destruct (Tagger e) as [t|]; simpl in He; [|done].
  by rewrite IH, !map_range_small.
Qed.

Lemma location_same_stack l rt1 rt2 here calldepth :
  log_go rt1 = log_go rt2 -> callers rt1 = callers rt2 ->
  location l rt1 here calldepth = location l rt2 here calldepth.
Proof. intros Hf Hc. unfold location. by rewrite Hf, Hc. Qed.

(** C6, as the code has it.  With the timestamp flag disabled, two calls
    with the same logger, the same arguments and the same call stack return
    and write the same bytes in JSON mode, and in text mode when every link
    of the walked chain carries at most one tag.  (The order in which a
    [range] enumerates a map with several entries may differ from one run
    to the next.) *)
Theorem write_two_runs json_Marshal fmt_q l rt1 rt2 h msg wrapped calldepth :
  range_ok rt1 -> range_ok rt2 ->
  log_go rt1 = log_go rt2 -> callers rt1 = callers rt2 ->
  flag_set l FlagTimestamp = false ->
  flag_set l FlagJSON = true
  \/ Forall (fun e => (size (default ∅ (link_tags h e)) <= 1)%nat)
       (chain (xerrors_Unwrap (Some (xerrors_Errorf msg wrapped)))) ->
  write json_Marshal fmt_q l rt1 h msg wrapped calldepth
  = write json_Marshal fmt_q l rt2 h msg wrapped calldepth.
Proof.
  intros H1 H2 Hf Hc Htime Hcase.
  destruct (flag_set l FlagJSON) eqn:Hjson.
  - rewrite !write_JSON by done. unfold writeJSON.
    assert (writeJSON_document l (called_from rt1 144) h msg wrapped
              (calldepth + 1)
            = writeJSON_document l (called_from rt2 144) h msg wrapped
                (calldepth + 1)) as ->; [|done].
    apply map_eq. intros k.
    rewrite !writeJSON_document_lookup by by apply called_from_ok.
    unfold writeJSON_fields. rewrite Htime.
    by rewrite (location_same_stack l (called_from rt1 144)
                  (called_from rt2 144)) by (simpl; congruence).
  - destruct Hcase as [|Hsmall]; [done|].
    rewrite !write_text, !write_buffer_segment by done.
    rewrite (emitted_small rt1 rt2) by done.
    unfold line_head.
    by rewrite Htime, (location_same_stack l rt1 rt2).
Qed.

Lemma write_two_runs_witness :
  range_ok Sample.rt /\ range_ok Sample.rt_rev
  /\ log_go Sample.rt = log_go Sample.rt_rev
  /\ callers Sample.rt = callers Sample.rt_rev
  /\ flag_set Sample.json FlagTimestamp = false
  /\ flag_set Sample.json FlagJSON = true
  /\ write Sample.Marshal id Sample.json Sample.rt Sample.two_tags
       "open: connect: timeout" (Some Sample.connect) 2
     = write Sample.Marshal id Sample.json Sample.rt_rev Sample.two_tags
         "open: connect: timeout" (Some Sample.connect) 2.
Proof.
  split; [exact Sample_rt_ok|]. split; [exact Sample_rt_rev_ok|].
  split; [reflexivity|]. split; [reflexivity|]. split; [reflexivity|].
  split; [reflexivity|].
  apply (write_two_runs Sample.Marshal id Sample.json Sample.rt
           Sample.rt_rev Sample.two_tags "open: connect: timeout"
           (Some Sample.connect) 2);
    [exact Sample_rt_ok | exact Sample_rt_rev_ok | reflexivity
    | reflexivity | reflexivity | left; reflexivity].
Defined.

(** C6 as stated fails: in text mode, a link with two tags is rendered in
    the order its map happens to be enumerated. *)
Lemma write_two_runs_differ :
  ~ (forall json_Marshal fmt_q l rt1 rt2 h msg wrapped calldepth,
       range_ok rt1 -> range_ok rt2 ->
       log_go rt1 = log_go rt2 -> callers rt1 = callers rt2 ->
       flag_set l FlagTimestamp = false ->
       write json_Marshal fmt_q l rt1 h msg wrapped calldepth
       = write json_Marshal fmt_q l rt2 h msg wrapped calldepth).
Proof.
  intros H.
  specialize (H Sample.Marshal id Sample.text Sample.rt Sample.rt_rev
                Sample.two_tags "open: connect: timeout"
                (Some Sample.connect) 2%nat Sample_rt_ok Sample_rt_rev_ok
                eq_refl eq_refl eq_refl).
  vm_compute in H. discriminate H.
Qed.

(** ** Package fur: Unwrap and Tag *)

Lemma Unwrap_of_irrefl e : Unwrap_of e <> Some e.
Proof.
  intros H. pose proof (Unwrap_of_height e) as Hlt.
  rewrite H in Hlt. simpl in Hlt. lia.
Qed.

(** C5, as the code has it.  [Unwrap] on a [fur.Error] returns what
    [xerrors.Unwrap] returns for the error it holds in [Err]: the cause of
    that error, or nil.  For [Errorf] with a [%w] verb this is the wrapped
    argument.  For [New(err)] it is the cause of [err] (nil when [err] has
    none), and never [err] itself. *)
Theorem Unwrap_is_cause_of_Err :
  (forall e, xerrors_Unwrap (Some (fur.as_error e)) = fur.Unwrap e
             /\ fur.Unwrap e = xerrors_Unwrap (fur.Err e))
  /\ (forall msg wrapped h,
        fur.Unwrap (fur.Errorf (xerrors_Errorf msg wrapped) h).1 = wrapped)
  /\ (forall err h,
        fur.Err (fur.New err h).1 = err
        /\ fur.Unwrap (fur.New err h).1 = xerrors_Unwrap err)
  /\ (forall x h, fur.Unwrap (fur.New (Some x) h).1 <> Some x).
Proof.
  split; [|split; [|split]].
  - intros e. split; [apply Unwrap_of_FurError | done].
  - intros msg [x|] h; reflexivity.
  - intros err h. by split.
  - intros x h. apply Unwrap_of_irrefl.
Qed.

(** C5 as stated fails: [New(err).Unwrap()] is not [err]. *)
Lemma Unwrap_New_not_err :
  ~ (forall err h, fur.Unwrap (fur.New (Some err) h).1 = Some err).
Proof. intros H. discriminate (H Sample.rootErr ∅). Qed.

Lemma make_Tags_fresh h : h !! (make_Tags h).1 = None.
Proof. apply not_elem_of_dom, is_fresh. Qed.

(** The errors that [New] and [Errorf] build have a map of their own, empty
    and not shared with any map made before. *)
Lemma New_tags err h :
  exists l, fur.tags (fur.New err h).1 = Some l
            /\ h !! l = None
            /\ (fur.New err h).2 = <[l := ∅]> h.
Proof. exists (make_Tags h).1. split; [done|]. split; [|done]. apply make_Tags_fresh. Qed.

Lemma Errorf_tags err h :
  exists l, fur.tags (fur.Errorf err h).1 = Some l
            /\ h !! l = None
            /\ (fur.Errorf err h).2 = <[l := ∅]> h.
Proof. exists (make_Tags h).1. split; [done|]. split; [|done]. apply make_Tags_fresh. Qed.

(** C8, as the code has it.  On a [fur.Error] whose map has been made (as
    [New] and [Errorf] do), [Tag] returns an error that has [key] set to
    [value] in its tag mapping and the other keys as before, with [Err],
    and so the cause, untouched; and every map but the receiver's own is
    left as it was, so the tag mapping of every link that holds another map
    is unchanged. *)
Theorem Tag_sets_key_only e key value h l m :
  fur.tags e = Some l ->
  h !! l = Some m ->
  exists e' h',
    fur.Tag e key value h = Some (e', h')
    /\ fur.Err e' = fur.Err e
    /\ fur.Unwrap e' = fur.Unwrap e
    /\ deref h' (fur.Error_Tags e') !! key = Some value
    /\ (forall k, k <> key ->
          deref h' (fur.Error_Tags e') !! k = deref h (fur.Error_Tags e) !! k)
    /\ (forall t, t <> fur.tags e -> deref h' t = deref h t)
    /\ (forall link, Tagger link <> Some (fur.tags e) ->
          link_tags h' link = link_tags h link).
Proof.
  intros Ht Hm. exists e, (<[l := <[key := value]> m]> h).
  split; [unfold fur.Tag; by rewrite Ht, Hm|].
  split; [done|]. split; [done|].
  unfold fur.Error_Tags. rewrite Ht.
  assert (Hframe : forall t, t <> Some l ->
            deref (<[l := <[key := value]> m]> h) t = deref h t).
  { intros [l'|] Hne; [|done]. simpl.
    rewrite lookup_insert_ne; [done|]. congruence. }
  simpl. rewrite lookup_insert_eq, Hm. simpl.
  split; [apply lookup_insert_eq|].
  split; [intros k Hk; by apply lookup_insert_ne|].
  split; [exact Hframe|].
  intros link Hlink. unfold link_tags.
  destruct (Tagger link) as [t|]; [|done]. simpl. f_equal.
  apply Hframe. congruence.
Qed.

Lemma Tag_sets_key_only_witness :
  fur.tags (fur.mkError (Some Sample.rootErr) (Some 1%positive))
    = Some 1%positive
  /\ Sample.ids !! 1%positive = Some {[ "id" := VInt 1 ]}
  /\ exists e' h',
       fur.Tag (fur.mkError (Some Sample.rootErr) (Some 1%positive))
         "address" (VString "10.0.0.1:5432") Sample.ids = Some (e', h')
       /\ deref h' (fur.Error_Tags e') !! "address"
          = Some (VString "10.0.0.1:5432")
       /\ link_tags h' Sample.open = link_tags Sample.ids Sample.open.
Proof.
  split; [reflexivity|]. split; [reflexivity|].
  destruct (Tag_sets_key_only
              (fur.mkError (Some Sample.rootErr) (Some 1%positive))
              "address" (VString "10.0.0.1:5432") Sample.ids 1%positive
              {[ "id" := VInt 1 ]} eq_refl eq_refl)
    as (e' & h' & HTag & _ & _ & Hkey & _ & _ & Hlinks).
  exists e', h'. split; [exact HTag|]. split; [exact Hkey|].
  apply Hlinks. discriminate.
Defined.

(** A value built by [New] can be tagged, and the tag is then the only one
    it has. *)
Lemma Tag_after_New err key value h :
  exists h', fur.Tag (fur.New err h).1 key value (fur.New err h).2
             = Some ((fur.New err h).1, h')
             /\ deref h' (fur.Error_Tags (fur.New err h).1)
                = {[ key := value ]}.
Proof.
  destruct (New_tags err h) as (l & Hl & _ & Hh).
  exists (<[l := {[ key := value ]}]> (fur.New err h).2).
  unfold fur.Tag, fur.Error_Tags. rewrite Hl, Hh, lookup_insert_eq. simpl.
  rewrite lookup_insert_eq. split; [|done].
  by rewrite insert_empty.
Qed.

(** [Tag] on the zero value of [fur.Error], whose map is nil, panics. *)
Lemma Tag_nil_map err key value h :
  fur.Tag (fur.mkError err None) key value h = None.
Proof. reflexivity. Qed.

(** C8 as stated fails: [Tag] on a [fur.Error] that was not built by
    [Errorf] or [New], such as the literal [fur.Error{Err: err}], finds a
    nil map and panics instead of returning a tagged value. *)
Lemma Tag_on_literal_panics :
  ~ (forall e key value h,
       exists e' h',
         fur.Tag e key value h = Some (e', h')
         /\ fur.Err e' = fur.Err e
         /\ deref h' (fur.Error_Tags e') !! key = Some value
         /\ (forall link, link <> fur.as_error e ->
               link_tags h' link = link_tags h link)).
Proof.
  intros H.
  destruct (H (fur.mkError (Some Sample.rootErr) None) "address"
              (VString "10.0.0.1:5432") ∅) as (e' & h' & HTag & _).
  discriminate HTag.
Qed.

(** Nor does the second half of C8 hold of every other link: a link that
    holds the receiver's map, as a copy of the receiver with another [Err]
    does, has its tag mapping changed along with the receiver's. *)
Lemma Tag_changes_link_with_same_map :
  let e := fur.mkError (Some Sample.rootErr) (Some 1%positive) in
  let link := Sample.connect in
  link <> fur.as_error e
  /\ exists h',
       fur.Tag e "address" (VString "10.0.0.1:5432") Sample.ids
         = Some (e, h')
       /\ link_tags h' link <> link_tags Sample.ids link.
Proof.
  split; [discriminate|].
  eexists. split; [reflexivity|].
  intros Heq. apply (f_equal (fun o => default ∅ o !! "address")) in Heq.
  vm_compute in Heq. discriminate Heq.
Qed.

(** X18.  Two [fur.Error] values that hold the same map see each other's
    tags: a tag set through one is read through the other. *)
Lemma Tag_shared_map e1 e2 key value h h' :
  fur.tags e1 = fur.tags e2 ->
  fur.Tag e1 key value h = Some (e1, h') ->
  deref h' (fur.Error_Tags e2) !! key = Some value.
Proof.
  unfold fur.Tag, fur.Error_Tags. intros <-.
  destruct (fur.tags e1) as [l|]; [|done].
  destruct (h !! l) as [m|]; [|done]. intros [= <-]. simpl.
  rewrite lookup_insert_eq. simpl. apply lookup_insert_eq.
Qed.

(** ** The scenarios of the package documentation *)

Lemma write_tag_segment_witness :
  range_ok Sample.rt
  /\ flag_set Sample.text FlagJSON = false
  /\ exists (per_link : list (list (string * Value))) (tail : string),
       Forall2 (fun e ps => ps ≡ₚ map_to_list (default ∅ (link_tags
                  (Sample.one_tag "address" (VString "10.0.0.1:5432")) e)))
               (chain (xerrors_Unwrap (Some (xerrors_Errorf
                  "open resource: connect: timeout" (Some Sample.connect)))))
               per_link
       /\ (tail = "" \/ tail = nl)
       /\ (write Sample.Marshal id Sample.text Sample.rt
             (Sample.one_tag "address" (VString "10.0.0.1:5432"))
             "open resource: connect: timeout" (Some Sample.connect) 2).1
          = line_head Sample.text Sample.rt 2
            +:+ "open resource: connect: timeout"
            +:+ tag_segment (concat per_link) +:+ tail.
Proof.
  split; [exact Sample_rt_ok|]. split; [reflexivity|].
  destruct (write_tag_segment Sample.Marshal id Sample.text Sample.rt
              (Sample.one_tag "address" (VString "10.0.0.1:5432"))
              "open resource: connect: timeout" (Some Sample.connect) 2
              Sample_rt_ok eq_refl)
    as (per_link & tail & Hperm & Htail & Hline & _).
  exists per_link, tail. split; [exact Hperm|]. split; [exact Htail|].
  exact Hline.
Defined.

Example Printf_text_tagged :
  write Sample.Marshal id Sample.text Sample.rt
    (Sample.one_tag "address" (VString "10.0.0.1:5432"))
    "open resource: connect: timeout" (Some Sample.connect) 2
  = ("open resource: connect: timeout (address=10.0.0.1:5432)" +:+ nl,
     [Write (Sink 1)
        ("open resource: connect: timeout (address=10.0.0.1:5432)" +:+ nl)]).
Proof. reflexivity. Qed.

Example Printf_text_plain :
  write Sample.Marshal id Sample.text Sample.rt ∅ "plain message" None 2
  = ("plain message" +:+ nl, [Write (Sink 1) ("plain message" +:+ nl)]).
Proof. reflexivity. Qed.

Example Printf_text_outer_before_inner :
  (write Sample.Marshal id Sample.text Sample.rt Sample.ids
     "serve: open: connect: timeout" (Some Sample.open) 2).1
  = "serve: open: connect: timeout (id=2 id=1)" +:+ nl.
Proof. reflexivity. Qed.

Example Printf_text_file :
  (write Sample.Marshal id (New (Sink 1) "app " FlagFile) Sample.rt ∅
     "plain message" None 2).1
  = "app main.go:42: plain message" +:+ nl.
Proof. reflexivity. Qed.

Example Printf_json_document :
  writeJSON_document Sample.json (called_from Sample.rt 144)
    (Sample.one_tag "address" (VString "10.0.0.1:5432"))
    "open resource: connect: timeout" (Some Sample.connect) 3
  = {[ "message" := VString "open resource: connect: timeout";
       "level" := VString "error";
       "address" := VString "10.0.0.1:5432" ]}.
Proof. vm_compute. reflexivity. Qed.

Example Printf_json_plain :
  writeJSON_document Sample.json (called_from Sample.rt 144) ∅
    "plain message" None 3
  = {[ "message" := VString "plain message"; "level" := VString "info" ]}.
Proof. vm_compute. reflexivity. Qed.

Example Printf_json_deepest_of_three :
  writeJSON_document Sample.json (called_from Sample.rt 144) Sample.ids
    "run: serve: open: connect: timeout" (Some Sample.serve) 3 !! "id"
  = Some (VInt 1).
Proof. vm_compute. reflexivity. Qed.

Example New_of_tagged_skips_its_tags :
  chain (xerrors_Unwrap (Some (xerrors_Errorf "retry: connect: timeout"
           (Some (fur.as_error (fur.mkError (Some Sample.connect)
                                            (Some 2%positive)))))))
  = [fur.as_error (fur.mkError (Some Sample.connect) (Some 2%positive));
     Sample.rootErr].
Proof. reflexivity. Qed.

(** ** Further properties of package log *)

Lemma map_range_empty rt n : range_ok rt -> map_range rt n ∅ = [].
Proof.
  intros Hrt. specialize (Hrt n ∅). rewrite map_to_list_empty in Hrt.
  by apply Permutation_nil_r.
Qed.

Lemma emitted_no_tags rt h n links :
  range_ok rt ->
  Forall (fun e => default ∅ (link_tags h e) = ∅) links ->
  emitted rt h n links = [].
Proof.
  intros Hrt Hno. revert n.
  induction Hno as [|e links He _ IH]; intros n; simpl; [done|].
  unfold link_tags in He. destruct (Tagger e) as [t|]; simpl in He; [|done].
  by rewrite He, map_range_empty, IH.
Qed.

Lemma chain_tag_no_tags h k links :
  Forall (fun e => default ∅ (link_tags h e) = ∅) links ->
  chain_tag h k links = None.
Proof.
  intros Hno. apply chain_tag_untagged.
  eapply Forall_impl; [exact Hno|]. intros e He. simpl in He. by rewrite He.
Qed.

(** X2.  When no link of the walked chain has a tag (it exposes no tag
    mapping, or an empty one), the text line is the head and the message
    with no parenthesised segment, and the JSON document holds the built-in
    fields alone. *)
Theorem write_no_tags l rt h msg wrapped calldepth :
  range_ok rt ->
  let err := xerrors_Unwrap (Some (xerrors_Errorf msg wrapped)) in
  Forall (fun e => default ∅ (link_tags h e) = ∅) (chain err) ->
  write_buffer l rt h msg wrapped calldepth
    = line_head l rt calldepth +:+ msg
  /\ writeJSON_document l rt h msg wrapped calldepth
     = writeJSON_level (writeJSON_fields l rt msg calldepth) err.
Proof.
  intros Hrt err Hno. split.
  - rewrite write_buffer_segment. fold err.
    rewrite emitted_no_tags by done. simpl. by rewrite app_nil_r_s.
  - apply map_eq. intros k. rewrite writeJSON_document_lookup by done.
    fold err. by rewrite chain_tag_no_tags.
Qed.

Lemma write_no_tags_witness :
  range_ok Sample.rt
  /\ Forall (fun e => default ∅ (link_tags ∅ e) = ∅)
       (chain (xerrors_Unwrap (Some (xerrors_Errorf
                 "open: connect: timeout" (Some Sample.connect)))))
  /\ write_buffer Sample.text Sample.rt ∅ "open: connect: timeout"
       (Some Sample.connect) 2
     = line_head Sample.text Sample.rt 2 +:+ "open: connect: timeout".
Proof.
  assert (Hno : Forall (fun e => default ∅ (link_tags ∅ e) = ∅)
       (chain (xerrors_Unwrap (Some (xerrors_Errorf
                 "open: connect: timeout" (Some Sample.connect)))))).
  { simpl. rewrite !chain_Some. simpl. simp chain. repeat constructor. }
  split; [exact Sample_rt_ok|]. split; [exact Hno|].
  exact (proj1 (write_no_tags Sample.text Sample.rt ∅
                  "open: connect: timeout" (Some Sample.connect) 2
                  Sample_rt_ok Hno)).
Defined.

Lemma dom_fold_tags h links (o : tagmap) :
  dom (fold_left (fun o e => default ∅ (link_tags h e) ∪ o) links o)
  = dom o ∪ chain_keys h links.
Proof.
  revert o. unfold chain_keys.
  induction links as [|e links IH]; intros o; simpl.
  - set_solver.
  - rewrite IH, dom_union_L. set_solver.
Qed.

Lemma emitted_keys rt h n links :
  range_ok rt ->
  list_to_set (emitted rt h n links).*1 = chain_keys h links.
Proof.
  intros Hrt. revert n. unfold chain_keys.
  induction links as [|e links IH]; intros n; simpl; [done|].
  unfold link_tags at 1. destruct (Tagger e) as [t|]; simpl.
  - rewrite fmap_app, list_to_set_app_L, IH. f_equal.
    apply set_eq. intros k.
    rewrite elem_of_list_to_set, elem_of_dom, (Hrt n (deref h t)).
    rewrite list_elem_of_fmap. split.
    + intros [[k' v] [-> Hkv]]. apply elem_of_map_to_list in Hkv. by exists v.
    + intros [v Hv]. exists (k, v). split; [done|].
      by apply elem_of_map_to_list.
  - rewrite IH, dom_empty_L. set_solver.
Qed.

(** X3.  The keys of the JSON document are ["message"] and ["level"],
    ["timestamp"] when the timestamp flag is set, ["file"] when a location
    was resolved, and the keys of the tags on the walked chain: the very
    keys that text mode prints in the tag segment. *)
Theorem writeJSON_document_keys l rt h msg wrapped calldepth :
  range_ok rt ->
  let links := chain (xerrors_Unwrap (Some (xerrors_Errorf msg wrapped))) in
  dom (writeJSON_document l rt h msg wrapped calldepth)
    = builtin_keys l rt calldepth ∪ chain_keys h links
  /\ chain_keys h links = list_to_set (emitted rt h 0 links).*1.
Proof.
  intros Hrt links. split; [|by rewrite emitted_keys].
  unfold writeJSON_document. fold links.
  rewrite for_unwrap_chain, fold_writeJSON_body, dom_fold_tags by done.
  f_equal. unfold builtin_keys, writeJSON_level, writeJSON_fields.
  destruct (xerrors_Unwrap _), (flag_set l FlagTimestamp),
    (location l rt 210 calldepth);
    rewrite !dom_insert_L, dom_empty_L; set_solver.
Qed.

Lemma writeJSON_document_keys_witness :
  range_ok Sample.rt
  /\ dom (writeJSON_document Sample.json_file (called_from Sample.rt 144)
            (Sample.one_tag "address" (VString "10.0.0.1:5432"))
            "open: connect: timeout" (Some Sample.connect) 3)
     = {[ "message"; "level"; "file"; "address" ]}.
Proof.
  split; [exact Sample_rt_ok|].
  rewrite (proj1 (writeJSON_document_keys Sample.json_file
                    (called_from Sample.rt 144)
                    (Sample.one_tag "address" (VString "10.0.0.1:5432"))
                    "open: connect: timeout" (Some Sample.connect) 3
                    (called_from_ok _ _ Sample_rt_ok))).
  vm_compute. reflexivity.
Defined.

(** X4.  In JSON mode the logger's prefix is not used: a call returns and
    writes the same whatever the prefix is. *)
Theorem write_JSON_ignores_prefix (json_Marshal : tagmap -> Marshaled) fmt_q
    l p rt h msg wrapped calldepth :
  flag_set l FlagJSON = true ->
  write json_Marshal fmt_q (SetPrefix l p) rt h msg wrapped calldepth
  = write json_Marshal fmt_q l rt h msg wrapped calldepth.
Proof.
  intros Hjson. rewrite !write_JSON by done. reflexivity.
Qed.

Lemma write_JSON_ignores_prefix_witness :
  flag_set Sample.json FlagJSON = true
  /\ write Sample.Marshal id (SetPrefix Sample.json "app: ") Sample.rt
       Sample.ids "open: connect: timeout" (Some Sample.connect) 2
     = write Sample.Marshal id Sample.json Sample.rt
         Sample.ids "open: connect: timeout" (Some Sample.connect) 2.
Proof.
  split; [reflexivity|].
  apply (write_JSON_ignores_prefix Sample.Marshal id Sample.json "app: "
           Sample.rt Sample.ids "open: connect: timeout"
           (Some Sample.connect) 2).
  reflexivity.
Defined.

(** X8.  The five flags are five different bits: whichever of them are
    combined into the flags of a logger, a flag tests as set exactly when
    it is one of those combined, and the test for a file flag succeeds
    exactly when [FlagFile] or [FlagPath] is among them. *)
Theorem flag_set_flags_of out p ts utc file path json :
  let l := mkLogger out p (flags_of ts utc file path json) in
  flag_set l FlagTimestamp = ts
  /\ flag_set l FlagUTC = utc
  /\ flag_set l FlagFile = file
  /\ flag_set l FlagPath = path
  /\ flag_set l FlagJSON = json
  /\ flag_set l (Z.lor FlagFile FlagPath) = file || path.
Proof. destruct ts, utc, file, path, json; repeat split. Qed.

Lemma flag_set_with_UTC l mask :
  Z.land FlagUTC mask = 0 ->
  flag_set (SetFlags l (Z.lor (flags l) FlagUTC)) mask = flag_set l mask.
Proof.
  intros Hm. unfold flag_set. simpl.
  by rewrite Z.land_lor_distr_l, Hm, Z.lor_0_r.
Qed.

(** X5.  [FlagUTC] changes nothing unless [FlagTimestamp] is set as well:
    adding it to the flags of a logger without the timestamp flag leaves
    what a call returns and writes as it was, in both modes. *)
Theorem write_UTC_without_timestamp (json_Marshal : tagmap -> Marshaled)
    fmt_q l rt h msg wrapped calldepth :
  flag_set l FlagTimestamp = false ->
  write json_Marshal fmt_q (SetFlags l (Z.lor (flags l) FlagUTC)) rt h msg
    wrapped calldepth
  = write json_Marshal fmt_q l rt h msg wrapped calldepth.
Proof.
  intros Hts. set (l' := SetFlags l (Z.lor (flags l) FlagUTC)).
  assert (Hflag : forall mask, Z.land FlagUTC mask = 0 ->
            flag_set l' mask = flag_set l mask)
    by (intros; by apply flag_set_with_UTC).
  assert (Hloc : forall rt here d, location l' rt here d = location l rt here d).
  { intros. unfold location. by rewrite !Hflag. }
  unfold write, writeJSON, writeJSON_document, writeJSON_fields, write_buffer.
  rewrite !Hloc, !(Hflag FlagJSON), !(Hflag FlagTimestamp), Hts by done.
  reflexivity.
Qed.

Lemma write_UTC_without_timestamp_witness :
  flag_set Sample.text FlagTimestamp = false
  /\ write Sample.Marshal id
       (SetFlags Sample.text (Z.lor (flags Sample.text) FlagUTC)) Sample.rt
       Sample.ids "open: connect: timeout" (Some Sample.connect) 2
     = write Sample.Marshal id Sample.text Sample.rt
         Sample.ids "open: connect: timeout" (Some Sample.connect) 2.
Proof.
  split; [reflexivity|].
  apply (write_UTC_without_timestamp Sample.Marshal id Sample.text Sample.rt
           Sample.ids "open: connect: timeout" (Some Sample.connect) 2).
  reflexivity.
Defined.

Lemma flag_set_file_or_path l :
  flag_set l (Z.lor FlagFile FlagPath)
  = flag_set l FlagFile || flag_set l FlagPath.
Proof.
  unfold flag_set. rewrite Z.land_lor_distr_r, <- negb_andb. f_equal.
  apply eq_true_iff_eq.
  rewrite andb_true_iff, !Z.eqb_eq. apply Z.lor_eq_0_iff.
Qed.

(** X6.  The location segment: it is absent when neither file flag is set
    and when the call stack has fewer than [calldepth] frames above the
    function; otherwise it is the file and line of that frame, with the
    full path when [FlagPath] is set (whether or not [FlagFile] is) and
    with what follows the last slash of the path when only [FlagFile]
    is. *)
Theorem location_cases l rt here calldepth :
  (flag_set l FlagFile = false -> flag_set l FlagPath = false ->
   location l rt here calldepth = None)
  /\ ((length (callers rt) < calldepth)%nat ->
      location l rt here calldepth = None)
  /\ (forall file line,
        callers rt !! calldepth = Some (file, line) ->
        (flag_set l FlagPath = true ->
         location l rt here (S calldepth)
         = Some (file +:+ ":" +:+ pretty line +:+ ": "))
        /\ (flag_set l FlagFile = true -> flag_set l FlagPath = false ->
            location l rt here (S calldepth)
            = Some ((path_Split file).2 +:+ ":" +:+ pretty line +:+ ": "))).
Proof.
  unfold location, runtime_Caller. rewrite flag_set_file_or_path.
  split; [by intros -> ->|]. split.
  - intros Hshort. destruct (_ || _); [|done].
    rewrite lookup_ge_None_2; [done|]. simpl. lia.
  - intros file line Hframe. simpl. rewrite Hframe. split.
    + intros ->. by rewrite orb_true_r.
    + by intros -> ->.
Qed.

Lemma location_entry l rt line1 line2 here calldepth :
  location l (called_from rt line1) here (S (S calldepth))
  = location l (called_from rt line2) here (S (S calldepth)).
Proof. reflexivity. Qed.

Lemma write_entry (json_Marshal : tagmap -> Marshaled) fmt_q l rt h
    msg wrapped line1 line2 :
  write json_Marshal fmt_q l (called_from rt line1) h msg wrapped 2
  = write json_Marshal fmt_q l (called_from rt line2) h msg wrapped 2.
Proof. reflexivity. Qed.

(** X7.  The entry points do not shift the reported location: [Printf],
    [Fatalf] and [Panicf], of a logger or of the package, perform the same
    write for the same caller and arguments.  [Fatalf] then exits with
    status 1, and [Panicf] panics with the string that [write] returned. *)
Theorem entry_points_agree (json_Marshal : tagmap -> Marshaled) fmt_q l rt h
    msg wrapped :
  let w := write json_Marshal fmt_q l (called_from rt 127) h msg wrapped 2 in
  Printf json_Marshal fmt_q l rt h msg wrapped = w.2
  /\ Fatalf json_Marshal fmt_q l rt h msg wrapped = (w.2, Exit 1)
  /\ Panicf json_Marshal fmt_q l rt h msg wrapped = (w.2, Panic w.1)
  /\ std_Printf json_Marshal fmt_q l rt h msg wrapped = (w.2, Return)
  /\ std_Fatalf json_Marshal fmt_q l rt h msg wrapped = (w.2, Exit 1)
  /\ std_Panicf json_Marshal fmt_q l rt h msg wrapped = (w.2, Panic w.1)
  /\ forall line other,
       write json_Marshal fmt_q l
         (mkRuntime (time_Now rt) (log_go rt) ((other, line) :: callers rt)
                    (map_range rt)) h msg wrapped 2 = w.
Proof. repeat split. Qed.

(** ** Further properties of package fur *)

(** X10.  Tagging twice: both tags are in the mapping afterwards; with the
    same key the second value replaces the first, as if the first call had
    not been made; with different keys the order of the two calls does not
    matter. *)
Theorem Tag_twice e k1 v1 k2 v2 h l m :
  fur.tags e = Some l ->
  h !! l = Some m ->
  exists h1 h2,
    fur.Tag e k1 v1 h = Some (e, h1)
    /\ fur.Tag e k2 v2 h1 = Some (e, h2)
    /\ deref h2 (fur.Error_Tags e) = <[k2 := v2]> (<[k1 := v1]> m)
    /\ deref h2 (fur.Error_Tags e) !! k2 = Some v2
    /\ (k1 = k2 -> fur.Tag e k2 v2 h = Some (e, h2))
    /\ (k1 <> k2 ->
        deref h2 (fur.Error_Tags e) !! k1 = Some v1
        /\ exists h1', fur.Tag e k2 v2 h = Some (e, h1')
                       /\ fur.Tag e k1 v1 h1' = Some (e, h2)).
Proof.
  intros Ht Hm.
  exists (<[l := <[k1 := v1]> m]> h),
         (<[l := <[k2 := v2]> (<[k1 := v1]> m)]> h).
  unfold fur.Tag, fur.Error_Tags. rewrite Ht, Hm. simpl.
  rewrite !lookup_insert_eq. simpl. rewrite insert_insert_eq.
  split; [done|]. split; [done|]. split; [done|].
  split; [apply lookup_insert_eq|]. split.
  - intros <-. by rewrite insert_insert_eq.
  - intros Hne. split.
    + rewrite lookup_insert_ne by done. apply lookup_insert_eq.
    + exists (<[l := <[k2 := v2]> m]> h). split; [done|].
      rewrite lookup_insert_eq, insert_insert_eq.
      by rewrite (insert_insert_ne m k1 k2) by done.
Qed.

Lemma Tag_twice_witness :
  fur.tags (fur.mkError (Some Sample.rootErr) (Some 1%positive))
    = Some 1%positive
  /\ Sample.ids !! 1%positive = Some {[ "id" := VInt 1 ]}
  /\ exists h1 h2,
       fur.Tag (fur.mkError (Some Sample.rootErr) (Some 1%positive))
         "id" (VInt 7) Sample.ids
       = Some (fur.mkError (Some Sample.rootErr) (Some 1%positive), h1)
       /\ fur.Tag (fur.mkError (Some Sample.rootErr) (Some 1%positive))
            "id" (VInt 8) h1
          = Some (fur.mkError (Some Sample.rootErr) (Some 1%positive), h2)
       /\ deref h2 (Some 1%positive) !! "id" = Some (VInt 8).
Proof.
  split; [reflexivity|]. split; [reflexivity|].
  destruct (Tag_twice (fur.mkError (Some Sample.rootErr) (Some 1%positive))
              "id" (VInt 7) "id" (VInt 8) Sample.ids 1%positive
              {[ "id" := VInt 1 ]} eq_refl eq_refl)
    as (h1 & h2 & H1 & H2 & _ & Hk & _).
  exists h1, h2. split; [exact H1|]. split; [exact H2|]. exact Hk.
Defined.

(** X11.  [New] and [Errorf] give the error a map of its own: the new
    error has no tags, and tagging it leaves the tag mapping of every map
    that existed before, and of the nil map, as it was. *)
Theorem New_Tag_isolated err key value h :
  let e := (fur.New err h).1 in
  let h1 := (fur.New err h).2 in
  fur.Err e = err
  /\ deref h1 (fur.Error_Tags e) = ∅
  /\ (forall t, deref h1 t = deref h t)
  /\ exists h2,
       fur.Tag e key value h1 = Some (e, h2)
       /\ deref h2 (fur.Error_Tags e) = {[ key := value ]}
       /\ forall t, t <> fur.tags e -> deref h2 t = deref h t.
Proof.
  intros e h1. subst e h1.
  destruct (New_tags err h) as (l & Hl & Hfresh & Hh).
  unfold fur.Error_Tags. rewrite Hl, Hh.
  assert (Hold : forall t, deref (<[l := ∅]> h) t = deref h t).
  { intros [l'|]; [|done]. simpl. destruct (decide (l = l')) as [<-|Hne].
    - by rewrite lookup_insert_eq, Hfresh.
    - by rewrite lookup_insert_ne. }
  split; [done|]. split; [simpl; by rewrite lookup_insert_eq|].
  split; [exact Hold|].
  exists (<[l := {[ key := value ]}]> h).
  unfold fur.Tag. rewrite Hl, lookup_insert_eq, insert_insert_eq.
  split; [by rewrite insert_empty|].
  split; [simpl; by rewrite lookup_insert_eq|].
  intros [l'|] Hne; [|done]. simpl. rewrite lookup_insert_ne; [done|].
  congruence.
Qed.

Lemma Tag_shared_map_witness :
  fur.tags (fur.mkError (Some Sample.rootErr) (Some 1%positive))
    = fur.tags (fur.mkError (Some Sample.connect) (Some 1%positive))
  /\ fur.Tag (fur.mkError (Some Sample.rootErr) (Some 1%positive))
       "address" (VString "10.0.0.1:5432") Sample.ids
     = Some (fur.mkError (Some Sample.rootErr) (Some 1%positive),
             <[1%positive := <["address" := VString "10.0.0.1:5432"]>
                               {[ "id" := VInt 1 ]}]> Sample.ids)
  /\ deref (<[1%positive := <["address" := VString "10.0.0.1:5432"]>
                              {[ "id" := VInt 1 ]}]> Sample.ids)
       (fur.Error_Tags (fur.mkError (Some Sample.connect) (Some 1%positive)))
       !! "address" = Some (VString "10.0.0.1:5432").
Proof.
  split; [reflexivity|]. split; [reflexivity|].
  apply (Tag_shared_map
           (fur.mkError (Some Sample.rootErr) (Some 1%positive))
           (fur.mkError (Some Sample.connect) (Some 1%positive))
           "address" (VString "10.0.0.1:5432") Sample.ids);
    reflexivity.
Defined.

(** ** Further properties of the chain walk *)

Lemma chain_height err :
  Forall (fun x => (height x <= oheight err)%nat) (chain err).
Proof.
  funelim (chain err); [|constructor].
  apply Forall_cons. split; [simpl; lia|].
  pose proof (Unwrap_of_height e) as Hlt. simpl in *.
  eapply Forall_impl; [eassumption|]. intros x Hx. simpl in Hx. lia.
Qed.

(** X13.  An error built by [Errorf] with a wrapped error keeps that error
    on its chain, right after itself; an error built by [New(x)] continues
    with the cause of [x], so [x] itself is not visited and the tags [x]
    may carry are not among those the logger collects. *)
Theorem chain_Errorf_New msg x h :
  let e := fur.as_error (fur.Errorf (xerrors_Errorf msg (Some x)) h).1 in
  let n := fur.as_error (fur.New (Some x) h).1 in
  chain (Some e) = e :: chain (Some x)
  /\ chain (Some n) = n :: chain (xerrors_Unwrap (Some x))
  /\ x ∉ chain (Some n).
Proof.
  intros e n. split; [by rewrite chain_Some|].
  split; [by rewrite chain_Some|].
  rewrite chain_Some. intros Hin.
  apply elem_of_cons in Hin as [Hx|Hin].
  - apply (f_equal height) in Hx. subst n. simpl in Hx. lia.
  - pose proof (chain_height (Unwrap_of x)) as Hh.
    rewrite Forall_forall in Hh. specialize (Hh x Hin).
    pose proof (Unwrap_of_height x). simpl in *. lia.
Qed.

Lemma fold_left_links {S : Type} (f g : S -> error -> S) links st :
  Forall (fun e => forall st, f st e = g st e) links ->
  fold_left f links st = fold_left g links st.
Proof.
  intros Hfg. revert st.
  induction Hfg as [|e links He _ IH]; intros st; simpl; [done|].
  by rewrite He, IH.
Qed.

Lemma link_tags_deref h h' e t :
  Tagger e = Some t -> link_tags h' e = link_tags h e ->
  deref h' t = deref h t.
Proof. unfold link_tags. intros ->. simpl. congruence. Qed.

(** X14.  A call depends on the store of maps only through the tag
    mappings of the links it walks: if those are the same in two stores,
    the call returns and writes the same in both.  In particular, tagging
    an error that shares no map with the chain of a logged error does not
    change what is logged. *)
Theorem write_store_frame (json_Marshal : tagmap -> Marshaled) fmt_q l rt
    h h' msg wrapped calldepth :
  Forall (fun e => link_tags h' e = link_tags h e)
    (chain (xerrors_Unwrap (Some (xerrors_Errorf msg wrapped)))) ->
  write json_Marshal fmt_q l rt h' msg wrapped calldepth
  = write json_Marshal fmt_q l rt h msg wrapped calldepth.
Proof.
  intros Hsame.
  assert (Htext : forall rt' st,
            fold_left (fun st e => write_body rt' h' e st)
              (chain (xerrors_Unwrap (Some (xerrors_Errorf msg wrapped)))) st
            = fold_left (fun st e => write_body rt' h e st)
              (chain (xerrors_Unwrap (Some (xerrors_Errorf msg wrapped)))) st).
  { intros rt' st. apply fold_left_links. eapply Forall_impl; [exact Hsame|].
    intros e He st'. unfold write_body.
    destruct (Tagger e) as [t|] eqn:Ht; [|done].
    by rewrite (link_tags_deref h h' e t). }
  assert (Hjson : forall rt' st,
            fold_left (fun st e => writeJSON_body rt' h' e st)
              (chain (xerrors_Unwrap (Some (xerrors_Errorf msg wrapped)))) st
            = fold_left (fun st e => writeJSON_body rt' h e st)
              (chain (xerrors_Unwrap (Some (xerrors_Errorf msg wrapped)))) st).
  { intros rt' st. apply fold_left_links. eapply Forall_impl; [exact Hsame|].
    intros e He st'. unfold writeJSON_body.
    destruct (Tagger e) as [t|] eqn:Ht; [|done].
    by rewrite (link_tags_deref h h' e t). }
  unfold write, writeJSON, writeJSON_document, write_buffer.
  rewrite !for_unwrap_chain. by rewrite Htext, Hjson.
Qed.

Lemma write_store_frame_witness :
  Forall (fun e => link_tags (<[2%positive := {[ "id" := VInt 9 ]}]>
                               Sample.ids) e
                   = link_tags Sample.ids e)
    (chain (xerrors_Unwrap (Some (xerrors_Errorf "open: connect: timeout"
              (Some Sample.connect)))))
  /\ write Sample.Marshal id Sample.text Sample.rt
       (<[2%positive := {[ "id" := VInt 9 ]}]> Sample.ids)
       "open: connect: timeout" (Some Sample.connect) 2
     = write Sample.Marshal id Sample.text Sample.rt Sample.ids
         "open: connect: timeout" (Some Sample.connect) 2.
Proof.
  assert (Hsame : Forall (fun e =>
              link_tags (<[2%positive := {[ "id" := VInt 9 ]}]> Sample.ids) e
              = link_tags Sample.ids e)
    (chain (xerrors_Unwrap (Some (xerrors_Errorf "open: connect: timeout"
              (Some Sample.connect)))))).
  { simpl. rewrite !chain_Some. simpl. simp chain. repeat constructor. }
  split; [exact Hsame|].
  exact (write_store_frame Sample.Marshal id Sample.text Sample.rt
           Sample.ids (<[2%positive := {[ "id" := VInt 9 ]}]> Sample.ids)
           "open: connect: timeout" (Some Sample.connect) 2 Hsame).
Defined.

(** ** From tagging to the log line *)

Lemma app_last_inj (a b : string) (c d : ascii) :
  a +:+ String c "" = b +:+ String d "" -> c = d.
Proof.
  revert b. induction a as [|x a IH]; intros [|y b] H;
    rewrite ?app_cons_s, ?app_nil_l_s in H.
  - by injection H.
  - injection H as _ H. apply (f_equal String.length) in H.
    rewrite app_length_s in H. simpl in H. lia.
  - injection H as _ H. apply (f_equal String.length) in H.
    rewrite app_length_s in H. simpl in H. lia.
  - injection H as _ H. by apply (IH b).
Qed.

Lemma tag_segment_closed ps :
  ps <> [] -> exists a, tag_segment ps = a +:+ ")".
Proof.
  destruct ps as [|p ps]; [done|]. intros _.
  exists (" (" +:+ render_tag p +:+ later_tags ps).
  simpl. by rewrite !app_assoc_s.
Qed.

Lemma tag_segment_no_newline (b : string) ps :
  ps <> [] -> strings_HasSuffix (b +:+ tag_segment ps) nl = false.
Proof.
  intros Hps. destruct (tag_segment_closed ps Hps) as [a Ha].
  destruct (strings_HasSuffix _ nl) eqn:Hsuf; [|done].
  exfalso. apply strings_HasSuffix_spec in Hsuf as [p Hp].
  rewrite Ha, <- !app_assoc_s in Hp. by apply app_last_inj in Hp.
Qed.

(** X15.  In text mode, when the walked chain has at least one tag, the
    line is the head, the message and the tag segment followed by one
    newline: the buffer then ends with the closing parenthesis, so a
    newline is always appended, whatever the message ends with. *)
Theorem write_tagged_line (json_Marshal : tagmap -> Marshaled) fmt_q l rt h
    msg wrapped calldepth :
  flag_set l FlagJSON = false ->
  let ps := emitted rt h 0
              (chain (xerrors_Unwrap (Some (xerrors_Errorf msg wrapped)))) in
  ps <> [] ->
  (write json_Marshal fmt_q l rt h msg wrapped calldepth).1
  = line_head l rt calldepth +:+ msg +:+ tag_segment ps +:+ nl.
Proof.
  intros Hjson ps Hps. rewrite write_text by done. simpl.
  rewrite write_buffer_segment. fold ps.
  rewrite <- (app_assoc_s (line_head l rt calldepth) msg).
  rewrite tag_segment_no_newline by done.
  by rewrite !app_assoc_s.
Qed.

Lemma write_tagged_line_witness :
  flag_set Sample.text FlagJSON = false
  /\ emitted Sample.rt Sample.ids 0
       (chain (xerrors_Unwrap (Some (xerrors_Errorf "timeout"
                 (Some Sample.connect))))) <> []
  /\ (write Sample.Marshal id Sample.text Sample.rt Sample.ids
        "timeout" (Some Sample.connect) 2).1
     = line_head Sample.text Sample.rt 2 +:+ "timeout"
       +:+ tag_segment (emitted Sample.rt Sample.ids 0
             (chain (xerrors_Unwrap (Some (xerrors_Errorf "timeout"
                       (Some Sample.connect)))))) +:+ nl.
Proof.
  assert (Hps : emitted Sample.rt Sample.ids 0
       (chain (xerrors_Unwrap (Some (xerrors_Errorf "timeout"
                 (Some Sample.connect))))) <> []) by (vm_compute; discriminate).
  split; [reflexivity|]. split; [exact Hps|].
  exact (write_tagged_line Sample.Marshal id Sample.text Sample.rt
           Sample.ids "timeout" (Some Sample.connect) 2 eq_refl Hps).
Defined.

Lemma fold_tags_no_tags h links (o : tagmap) :
  Forall (fun e => default ∅ (link_tags h e) = ∅) links ->
  fold_left (fun o e => default ∅ (link_tags h e) ∪ o) links o = o.
Proof.
  intros Hno. revert o.
  induction Hno as [|e links He _ IH]; intros o; simpl; [done|].
  by rewrite He, (left_id_L ∅ (∪)), IH.
Qed.

(** X16.  The use the package documents, from end to end: an error built
    by [Errorf] around an untagged cause and given one tag with [Tag],
    when logged, is followed in text mode by [ (key=value)] and a newline,
    and its JSON document is the built-in fields, with level ["error"],
    and the tag as one more top-level field. *)
Theorem Printf_Errorf_Tag (json_Marshal : tagmap -> Marshaled) fmt_q l rt h
    m root key value msg calldepth :
  range_ok rt ->
  Forall (fun x => Tagger x = None) (chain (Some root)) ->
  exists e h1 h2,
    fur.Errorf (xerrors_Errorf m (Some root)) h = (e, h1)
    /\ fur.Tag e key value h1 = Some (e, h2)
    /\ (flag_set l FlagJSON = false ->
        (write json_Marshal fmt_q l rt h2 msg (Some (fur.as_error e))
           calldepth).1
        = line_head l rt calldepth +:+ msg
          +:+ " (" +:+ key +:+ "=" +:+ fmt_v value +:+ ")" +:+ nl)
    /\ writeJSON_document l rt h2 msg (Some (fur.as_error e)) calldepth
       = <[key := value]>
           (<["level" := VString "error"]>
              (writeJSON_fields l rt msg calldepth)).
Proof.
  intros Hrt Hroot.
  destruct (Errorf_tags (xerrors_Errorf m (Some root)) h)
    as (r & Hr & Hfresh & Hh).
  set (e := (fur.Errorf (xerrors_Errorf m (Some root)) h).1) in *.
  exists e, (<[r := ∅]> h), (<[r := {[ key := value ]}]> h).
  assert (He : fur.as_error e = FurError (Some (wrapError m root)) (Some r)).
  { unfold fur.as_error. by rewrite Hr. }
  assert (Hno : forall h' : store,
            Forall (fun x => default ∅ (link_tags h' x) = ∅)
                   (chain (Some root))).
  { intros h'. eapply Forall_impl; [exact Hroot|].
    intros x Hx. simpl in Hx. unfold link_tags. by rewrite Hx. }
  split; [rewrite <- Hh; by destruct (fur.Errorf _ h)|].
  split.
  { unfold fur.Tag. rewrite Hr, lookup_insert_eq, insert_insert_eq.
    by rewrite insert_empty. }
  assert (Hchain : chain (xerrors_Unwrap (Some (xerrors_Errorf msg
                      (Some (fur.as_error e)))))
                   = fur.as_error e :: chain (Some root)).
  { simpl. rewrite chain_Some. by rewrite He. }
  assert (Hmap : deref (<[r := {[ key := value ]}]> h) (Some r)
                 = {[ key := value ]}).
  { simpl. by rewrite lookup_insert_eq. }
  assert (Hemit : emitted rt (<[r := {[ key := value ]}]> h) 0
                    (chain (xerrors_Unwrap (Some (xerrors_Errorf msg
                       (Some (fur.as_error e))))))
                  = [(key, value)]).
  { rewrite Hchain, He. simpl. rewrite lookup_insert_eq. simpl.
    rewrite map_range_small by (done || by rewrite map_size_singleton).
    rewrite map_to_list_singleton. simpl.
    by rewrite (emitted_no_tags rt _ _ _ Hrt (Hno _)). }
  split.
  - intros Hjson. rewrite write_text by done. simpl.
    rewrite write_buffer_segment, Hemit.
    rewrite <- (app_assoc_s (line_head l rt calldepth) msg).
    rewrite tag_segment_no_newline by done.
    unfold tag_segment, render_tag. simpl. by rewrite !app_assoc_s.
  - unfold writeJSON_document.
    rewrite for_unwrap_chain, fold_writeJSON_body, Hchain by done.
    simpl. rewrite fold_tags_no_tags by apply Hno.
    replace (fresh (dom h)) with r
      by (unfold e in Hr; simpl in Hr; congruence).
    rewrite lookup_insert_eq. simpl.
    symmetry. apply insert_union_singleton_l.
Qed.

Lemma Printf_Errorf_Tag_witness :
  range_ok Sample.rt
  /\ Forall (fun x => Tagger x = None) (chain (Some Sample.rootErr))
  /\ exists e h1 h2,
       fur.Errorf (xerrors_Errorf "connect: timeout" (Some Sample.rootErr)) ∅
         = (e, h1)
       /\ fur.Tag e "address" (VString "10.0.0.1:5432") h1 = Some (e, h2)
       /\ writeJSON_document Sample.json Sample.rt h2
            "open resource: connect: timeout" (Some (fur.as_error e)) 3
          = <["address" := VString "10.0.0.1:5432"]>
              (<["level" := VString "error"]>
                 (writeJSON_fields Sample.json Sample.rt
                    "open resource: connect: timeout" 3)).
Proof.
  assert (Hroot : Forall (fun x => Tagger x = None)
                    (chain (Some Sample.rootErr))).
  { rewrite chain_Some. simpl. simp chain. repeat constructor. }
  split; [exact Sample_rt_ok|]. split; [exact Hroot|].
  destruct (Printf_Errorf_Tag Sample.Marshal id Sample.json Sample.rt ∅
              "connect: timeout" Sample.rootErr "address"
              (VString "10.0.0.1:5432") "open resource: connect: timeout" 3
              Sample_rt_ok Hroot)
    as (e & h1 & h2 & HE & HT & _ & HJ).
  exists e, h1, h2. split; [exact HE|]. split; [exact HT|]. exact HJ.
Defined.

(** X17.  The fields of the JSON document, key by key: under a key that no
    link of the walked chain carries as a tag, ["message"] holds the
    formatted message, ["timestamp"] holds the formatted time (in UTC with
    [FlagUTC]) exactly when the timestamp flag is set, ["file"] holds the
    location exactly when one was resolved, and any other key but
    ["level"] is absent. *)
Theorem writeJSON_builtin_values l rt h msg wrapped calldepth k :
  range_ok rt ->
  untagged h k (chain (xerrors_Unwrap (Some (xerrors_Errorf msg wrapped)))) ->
  let o := writeJSON_document l rt h msg wrapped calldepth in
  (k = "message" -> o !! k = Some (VString msg))
  /\ (k = "timestamp" ->
      o !! k = if flag_set l FlagTimestamp
               then Some (VString (time_Now rt (flag_set l FlagUTC)))
               else None)
  /\ (k = "file" -> o !! k = VString <$> location l rt 210 calldepth)
  /\ (k ∉ builtin_fields -> o !! k = None).
Proof.
  intros Hrt Hun o. subst o.
  rewrite writeJSON_document_lookup, chain_tag_untagged by done.
  unfold writeJSON_fields, timestamp.
  split; [|split; [|split]]; intros Hk.
  - subst k. rewrite writeJSON_level_lookup_ne by done.
    destruct (flag_set l FlagTimestamp), (location l rt 210 calldepth);
      by simplify_map_eq.
  - subst k. rewrite writeJSON_level_lookup_ne by done.
    destruct (flag_set l FlagTimestamp), (location l rt 210 calldepth);
      by simplify_map_eq.
  - subst k. rewrite writeJSON_level_lookup_ne by done.
    destruct (flag_set l FlagTimestamp), (location l rt 210 calldepth);
      by simplify_map_eq.
  - assert (k <> "message" /\ k <> "level" /\ k <> "timestamp"
            /\ k <> "file") as (? & ? & ? & ?).
    { unfold builtin_fields in Hk. set_solver. }
    rewrite writeJSON_level_lookup_ne by done.
    destruct (flag_set l FlagTimestamp), (location l rt 210 calldepth);
      by simplify_map_eq.
Qed.

Lemma writeJSON_builtin_values_witness :
  range_ok Sample.rt
  /\ untagged Sample.ids "message"
       (chain (xerrors_Unwrap (Some (xerrors_Errorf "open: connect: timeout"
                 (Some Sample.connect)))))
  /\ writeJSON_document Sample.json Sample.rt Sample.ids
       "open: connect: timeout" (Some Sample.connect) 3 !! "message"
     = Some (VString "open: connect: timeout").
Proof.
  assert (Hun : untagged Sample.ids "message"
       (chain (xerrors_Unwrap (Some (xerrors_Errorf "open: connect: timeout"
                 (Some Sample.connect)))))).
  { apply chain_tag_None. vm_compute. reflexivity. }
  split; [exact Sample_rt_ok|]. split; [exact Hun|].
  exact (proj1 (writeJSON_builtin_values Sample.json Sample.rt Sample.ids
                  "open: connect: timeout" (Some Sample.connect) 3
                  "message" Sample_rt_ok Hun) eq_refl).
Defined.
